(** * Mean structure of an oxDNA trajectory: compute_mean.py and distance.py

    A shallow embedding of the two scripts of oxdna_analysis_tools and the
    properties of their specification.

    Numbers.  numpy's float64 arithmetic is idealised as arithmetic on the
    real numbers [R]: sums, products, quotients by a non-zero divisor and
    square roots are exact.  Where the reals have no value numpy gives nan or
    an infinity with a warning; the properties that rest on a quotient are
    stated for a non-zero divisor, and the one quotient of the scripts whose
    divisor can be zero, the Result Finalizer's division by the number of
    processed frames, is embedded a second time on [float64], the reals with
    nan and the infinities.

    Errors.  Operations that raise in Python return [option] here ([None]
    is the raised exception); the scripts' [exit] calls and uncaught
    exceptions are outcomes of a small script monad. *)

From Stdlib Require Import Reals Lra Lia List Ascii String Bool PeanoNat ZArith.
From stdpp Require Import base option strings pretty gmap.
Import ListNotations.

(** ** numpy vectors and arrays *)

Module Np.

Open Scope R_scope.

(** A float array of shape (3,). *)
Record vec3 : Type := V3 { vx : R; vy : R; vz : R }.

(** A float array of shape (N, 3), row by row.  The empty list is numpy's
    [np.array([])], whose shape is (0,). *)
Abbreviation array := (list vec3) (only parsing).

(** A 3x3 matrix, by rows: [mrow0 m] is [m[0]]. *)
Record mat3 : Type := M3 { mrow0 : vec3; mrow1 : vec3; mrow2 : vec3 }.

(** [np.zeros(3)] *)
Definition zeros3 : vec3 := V3 0 0 0.

Definition vadd (a b : vec3) : vec3 :=
  V3 (vx a + vx b) (vy a + vy b) (vz a + vz b).

Definition vsub (a b : vec3) : vec3 :=
  V3 (vx a - vx b) (vy a - vy b) (vz a - vz b).

(** [v / c] for a scalar [c] *)
Definition vdiv (v : vec3) (c : R) : vec3 :=
  V3 (vx v / c) (vy v / c) (vz v / c).

(** [v[i]] for i in 0, 1, 2 *)
Definition vget (v : vec3) (i : nat) : R :=
  match i with
  | O => vx v
  | S O => vy v
  | _ => vz v
  end.

(** [m[i][j]] *)
Definition mget (m : mat3) (i j : nat) : R :=
  match i with
  | O => vget (mrow0 m) j
  | S O => vget (mrow1 m) j
  | _ => vget (mrow2 m) j
  end.

(** [np.linalg.norm(v)]: the square root of the sum of the squares. *)
Definition norm (v : vec3) : R :=
  sqrt (vx v * vx v + vy v * vy v + vz v * vz v).

(** One output row of [np.einsum('ij, ki -> kj', rot, conf)]:
    [out[k][j] = sum over i of rot[i][j] * conf[k][i]]. *)
Definition einsum_row (rot : mat3) (p : vec3) : vec3 :=
  let out j := fold_right Rplus 0
                 (map (fun i => mget rot i j * vget p i) (seq 0 3)) in
  V3 (out 0%nat) (out 1%nat) (out 2%nat).

(** [np.einsum('ij, ki -> kj', rot, conf)].  An operand of shape (0,) has
    too few dimensions for the subscripts [ki], and numpy raises. *)
Definition einsum (rot : mat3) (conf : array) : option array :=
  match conf with
  | [] => None
  | _ => Some (map (einsum_row rot) conf)
  end.

(** [conf + tran]: the (3,) vector is broadcast over the rows. *)
Definition add_bcast (conf : array) (tran : vec3) : array :=
  map (fun p => vadd p tran) conf.

(** [conf - cms] and the in-place [conf -= cms], the same broadcast. *)
Definition sub_bcast (conf : array) (cms : vec3) : array :=
  map (fun p => vsub p cms) conf.

(** Row-wise sum of two arrays of one shape. *)
Fixpoint zip_add (a b : array) : array :=
  match a, b with
  | x :: a', y :: b' => vadd x y :: zip_add a' b'
  | _, _ => []
  end.

(** The in-place [a += b].  The result has the shape of [a]: a one-row [b]
    is broadcast, an equal shape is added row by row, and numpy raises on
    every other pair of shapes, and when either side has shape (0,). *)
Definition iadd (a b : array) : option array :=
  match a, b with
  | [], _ => None
  | _, [] => None
  | _, [v] => Some (add_bcast a v)
  | _, _ => if (length a =? length b)%nat then Some (zip_add a b) else None
  end.

(** [a / c] for a scalar, and the in-place [a /= c]. *)
Definition arr_div (a : array) (c : R) : array :=
  map (fun v => vdiv v c) a.

(** [np.sum(np.array(arrs), axis=0)] for arrays of one shape: the sum
    across the list, row by row. *)
Definition sum_axis0 (arrs : list array) : array :=
  match arrs with
  | [] => []
  | a :: rest => fold_left zip_add rest a
  end.

(** [np.array([np.zeros(3) for _ in range(n)])] *)
Definition zeros (n : nat) : array := repeat zeros3 n.

End Np.

Export Np.

(** ** compute_mean.py: the helpers *)

Open Scope R_scope.

(** [compute_cms]: the centre of mass of a set of points. *)
Definition compute_cms (points : array) : vec3 :=
  let cms := fold_left vadd points zeros3 in
  vdiv cms (INR (length points)).

(** [normalize]: a normalized copy of [v]; a vector of norm 0 is returned
    as it is. *)
Definition normalize (v : vec3) : vec3 :=
  let norm := norm v in
  if Req_dec_T norm 0 then v else vdiv v norm.

(** ** Structures and the trajectory reader *)

(** A particle of a configuration, with the attributes the scripts read. *)
Record nucleotide : Type := Nucleotide {
  index : nat;
  cm_pos : vec3;
  _a1 : vec3;
  _a3 : vec3
}.

(** One configuration of the trajectory ([base.System]). *)
Record system : Type := System {
  _time : nat;
  _nucleotides : list nucleotide
}.

(** The particle count of a configuration. *)
Definition _N (conf : system) : nat := length (_nucleotides conf).

(** Modelled from the spec: the Structure Reader, [UTILS.readers.LorenzoReader2],
    which is not among the sources.  A reader is the sequence of the
    configurations it has not read yet; [_get_system] skips [N_skip] of them
    and returns the next one, or [None] (Python's [False]) at the end of the
    stream, together with the advanced reader. *)
Definition LorenzoReader2 : Type := list system.

Definition _get_system (N_skip : nat) (reader : LorenzoReader2)
  : option system * LorenzoReader2 :=
  match skipn N_skip reader with
  | [] => (None, [])
  | conf :: rest => (Some conf, rest)
  end.

(** [prep_pos_for_json]: a list of lists out of an array. *)
Definition prep_pos_for_json (conf : array) : list (list R) :=
  map (fun p => [vx p; vy p; vz p]) conf.

(** ** compute_mean.py: the Frame Accumulator *)

(** The five values [compute_mean] returns: the three sums, the
    intermediate means and the number of configurations summed. *)
Definition partial_result : Type :=
  (array * array * array * list (list (list R)) * nat)%type.

Definition res_pos (r : partial_result) : array :=
  let '(p, _, _, _, _) := r in p.
Definition res_a1 (r : partial_result) : array :=
  let '(_, a, _, _, _) := r in a.
Definition res_a3 (r : partial_result) : array :=
  let '(_, _, a, _, _) := r in a.
Definition res_intermediate (r : partial_result) : list (list (list R)) :=
  let '(_, _, _, i, _) := r in i.
Definition res_confid (r : partial_result) : nat :=
  let '(_, _, _, _, c) := r in c.

(** The objects [compute_mean] works on: the caller's reference array, which
    it receives by reference, and its own local arrays, list and counter.
    Every field is one Python object; [np.copy] makes the array of an
    intermediate mean an object of its own, so no two fields alias. *)
Record cm_state : Type := CmState {
  align_conf : array;
  mean_pos_storage : array;
  mean_a1_storage : array;
  mean_a3_storage : array;
  intermediate_mean_structures : list (list (list R));
  confid : nat
}.

Section FrameAccumulator.

(** [SVDSuperimposer]: [sup.set(reference, coords); sup.run();
    sup.get_rotran()], a pure function of its two point sets that gives the
    rotation and the translation, or raises ([None]). *)
Variable sup : array -> array -> option (mat3 * vec3).

(** [System.inbox]: the configuration brought back into the box. *)
Variable inbox : system -> system.

(** The module-level names the function reads. *)
Variable indexes : list nat.
Variable n_nuc : nat.
Variable parallel : bool.
Variable INTERMEDIATE_EVERY : nat.

Definition indexed_fetch_np (conf : system) : array :=
  map cm_pos
    (List.filter (fun n => existsb (Nat.eqb (index n)) indexes)
       (_nucleotides conf)).

Definition fetch_np (conf : system) : array :=
  map cm_pos (_nucleotides conf).

Definition fetch_a1 (conf : system) : array :=
  map _a1 (_nucleotides conf).

Definition fetch_a3 (conf : system) : array :=
  map _a3 (_nucleotides conf).

(** Lines 115-136: one configuration aligned and added to the sums.  The
    line printed for the frame is left out. *)
Definition accumulate (mysystem : system) (st : cm_state) : option cm_state :=
  let mysystem := inbox mysystem in
  let cur_conf_pos := fetch_np mysystem in
  let indexed_cur_conf_pos := indexed_fetch_np mysystem in
  let cur_conf_a1 := fetch_a1 mysystem in
  let cur_conf_a3 := fetch_a3 mysystem in
  '(rot, tran) ← sup (align_conf st) indexed_cur_conf_pos;
  cur_conf_pos ← (fun c => add_bcast c tran) <$> einsum rot cur_conf_pos;
  cur_conf_a1 ← einsum rot cur_conf_a1;
  cur_conf_a3 ← einsum rot cur_conf_a3;
  pos ← iadd (mean_pos_storage st) cur_conf_pos;
  a1 ← iadd (mean_a1_storage st) cur_conf_a1;
  a3 ← iadd (mean_a3_storage st) cur_conf_a3;
  Some (CmState (align_conf st) pos a1 a3
          (intermediate_mean_structures st) (S (confid st))).

(** [not parallel and confid % INTERMEDIATE_EVERY == 0].
    [INTERMEDIATE_EVERY] is a numpy float: the remainder by 0.0 is nan,
    which does not equal 0. *)
Definition intermediate_due (confid : nat) : bool :=
  negb parallel &&
  (if (INTERMEDIATE_EVERY =? 0)%nat then false
   else (confid mod INTERMEDIATE_EVERY =? 0)%nat).

(** Lines 141-147: the intermediate mean, on a copy of the position sum. *)
Definition intermediate_mean (st : cm_state) : cm_state :=
  if intermediate_due (confid st) then
    let mp := mean_pos_storage st in
    let mp := arr_div mp (INR (confid st)) in
    CmState (align_conf st) (mean_pos_storage st) (mean_a1_storage st)
      (mean_a3_storage st)
      (intermediate_mean_structures st ++ [prep_pos_for_json mp])
      (confid st)
  else st.

(** Lines 114-147: the loop, entered with a configuration in [mysystem].
    [mysystem = reader._get_system()] is the match on the reader: at the
    end of the stream [mysystem] is False and the loop is left. *)
Fixpoint mean_loop (stop : nat) (reader : LorenzoReader2) (mysystem : system)
    (st : cm_state) {struct reader} : option cm_state :=
  if (confid st <? stop)%nat then
    st ← accumulate mysystem st;
    let st := intermediate_mean st in
    match reader with
    | [] => Some st
    | mysystem :: reader => mean_loop stop reader mysystem st
    end
  else Some st.

(** [compute_mean], with the state it leaves behind. *)
Definition compute_mean_state (reader : LorenzoReader2) (align_conf : array)
    (num_confs : nat) (start stop : option nat) : option cm_state :=
  let stop := match stop with None => num_confs | Some stop => stop end in
  let start := match start with None => O | Some start => start end in
  let '(mysystem, reader) := _get_system start reader in
  let st := CmState align_conf (zeros n_nuc) (zeros n_nuc) (zeros n_nuc) [] 0 in
  match mysystem with
  | None => Some st
  | Some mysystem => mean_loop stop reader mysystem st
  end.

Definition compute_mean (reader : LorenzoReader2) (align_conf : array)
    (num_confs : nat) (start stop : option nat) : option partial_result :=
  st ← compute_mean_state reader align_conf num_confs start stop;
  Some (mean_pos_storage st, mean_a1_storage st, mean_a3_storage st,
        intermediate_mean_structures st, confid st).

End FrameAccumulator.

(** ** compute_mean.py: the reference, the reduction and the final record *)

(** Lines 268-272: the positions of the reference configuration, shifted
    in place so that their centre of mass is at the origin. *)
Definition recentre_reference (indexes : list nat) (conf : system) : array :=
  let align_conf := indexed_fetch_np indexes conf in
  let cms := compute_cms align_conf in
  sub_bcast align_conf cms.

(** Lines 285-290: the partial results of the workers combined. *)
Definition combine (out : list partial_result) : partial_result :=
  let mean_pos_storage := sum_axis0 (map res_pos out) in
  let mean_a1_storage := sum_axis0 (map res_a1 out) in
  let mean_a3_storage := sum_axis0 (map res_a3 out) in
  let intermediate_mean_structures := concat (map res_intermediate out) in
  let processed_frames := fold_left Nat.add (map res_confid out) O in
  (mean_pos_storage, mean_a1_storage, mean_a3_storage,
   intermediate_mean_structures, processed_frames).

(** Modelled from the spec: the Parallel Reducer's partition,
    [UTILS.parallelize], which is not among the sources.  [0, F) is cut into
    W contiguous ranges, as equal in size as possible, the remainder going to
    the earliest ranges. *)
Fixpoint ranges_from (from : nat) (sizes : list nat) : list (nat * nat) :=
  match sizes with
  | [] => []
  | n :: sizes => (from, from + n)%nat :: ranges_from (from + n) sizes
  end.

Definition split_ranges (F W : nat) : list (nat * nat) :=
  ranges_from 0
    (map (fun i => if (i <? F mod W)%nat then S (F / W) else (F / W)%nat)
       (seq 0 W)).

(** Modelled from the spec: [parallelize.fire_multiprocess], which is not
    among the sources.  Every range gets a reader of its own on the
    trajectory, positioned at the start of the range, and a Frame
    Accumulator bounded to the range: [compute_mean] counts the
    configurations it folds from 0 and stops when the counter reaches [stop],
    so the bound a worker is given is the number of configurations of its
    range.  One failed worker fails the whole reduction. *)
Definition run_chunks (sup : array -> array -> option (mat3 * vec3))
    (inbox : system -> system) (indexes : list nat) (n_nuc : nat)
    (INTERMEDIATE_EVERY : nat) (traj_file : list system) (num_confs : nat)
    (align_conf : array) (chunks : list (nat * nat))
  : option (list partial_result) :=
  mapM (fun '(first, last) =>
          compute_mean sup inbox indexes n_nuc true INTERMEDIATE_EVERY
            traj_file align_conf num_confs (Some first)
            (Some (last - first)%nat))
       chunks.

Definition fire_multiprocess (sup : array -> array -> option (mat3 * vec3))
    (inbox : system -> system) (indexes : list nat) (n_nuc : nat)
    (INTERMEDIATE_EVERY : nat) (traj_file : list system) (num_confs n_cpus : nat)
    (align_conf : array) : option (list partial_result) :=
  run_chunks sup inbox indexes n_nuc INTERMEDIATE_EVERY traj_file num_confs
    align_conf (split_ranges num_confs n_cpus).

(** The contiguous, non-overlapping, exhaustive partitions of [from, F). *)
Fixpoint partitions (from F : nat) (chunks : list (nat * nat)) : Prop :=
  match chunks with
  | [] => from = F
  | (start, stop) :: chunks =>
      start = from /\ (start <= stop)%nat /\ partitions stop F chunks
  end.

(** Lines 295-311: the record that is serialized, before [dumps]. *)
Record mean_file : Type := MeanFile {
  i_means : list (list (list R));
  g_mean : list (list R);
  a1_mean : list (list R);
  a3_mean : list (list R);
  p_frames : nat;
  ini_conf_conf : list (list R);
  ini_conf_id : nat
}.

(** [[normalize(v) for v in (storage / processed_frames)]] *)
Definition mean_orientations (storage : array) (processed_frames : nat) : array :=
  map normalize (arr_div storage (INR processed_frames)).

Definition finalize (r : partial_result) (align_conf : array)
    (align_conf_id : nat) : mean_file :=
  let '(mean_pos_storage, mean_a1_storage, mean_a3_storage,
        intermediate_mean_structures, processed_frames) := r in
  MeanFile intermediate_mean_structures
    (prep_pos_for_json (arr_div mean_pos_storage (INR processed_frames)))
    (prep_pos_for_json (mean_orientations mean_a1_storage processed_frames))
    (prep_pos_for_json (mean_orientations mean_a3_storage processed_frames))
    processed_frames
    (prep_pos_for_json align_conf)
    align_conf_id.

(** ** numpy's float64 at a division by zero

    The Result Finalizer divides the sums by the number of processed frames,
    which is 0 when no frame was processed.  numpy does not raise there: it
    warns and gives nan for 0/0 and an infinity for x/0 with x not 0.
    [float64] adds nan and the two infinities to the real numbers, and the
    functions below are the arithmetic of lines 300-305 and of [normalize]
    on these values.  Signed zeros are not told apart: a zero divisor is
    +0.0, as the count 0 is. *)
Module Float64.

Inductive float64 : Type :=
| Finite (x : R)
| Inf (minus : bool)
| NaN.

(** [x < 0] *)
Definition negative (x : R) : bool := if Rlt_dec x 0 then true else false.

(** [a / b] *)
Definition fdiv (a b : float64) : float64 :=
  match a, b with
  | NaN, _ | _, NaN => NaN
  | Finite x, Finite y =>
      if Req_dec_T y 0 then
        if Req_dec_T x 0 then NaN else Inf (negative x)
      else Finite (x / y)
  | Finite _, Inf _ => Finite 0
  | Inf s, Finite y => Inf (xorb s (negative y))
  | Inf _, Inf _ => NaN
  end.

(** [a * b] *)
Definition fmul (a b : float64) : float64 :=
  match a, b with
  | NaN, _ | _, NaN => NaN
  | Finite x, Finite y => Finite (x * y)
  | Finite x, Inf s | Inf s, Finite x =>
      if Req_dec_T x 0 then NaN else Inf (xorb s (negative x))
  | Inf s, Inf t => Inf (xorb s t)
  end.

(** [a + b] *)
Definition fadd (a b : float64) : float64 :=
  match a, b with
  | NaN, _ | _, NaN => NaN
  | Finite x, Finite y => Finite (x + y)
  | Finite _, Inf s | Inf s, Finite _ => Inf s
  | Inf s, Inf t => if Bool.eqb s t then Inf s else NaN
  end.

(** [np.sqrt(a)] *)
Definition fsqrt (a : float64) : float64 :=
  match a with
  | Finite x => if Rlt_dec x 0 then NaN else Finite (sqrt x)
  | Inf false => Inf false
  | Inf true => NaN
  | NaN => NaN
  end.

(** [a == 0]: nan and the infinities do not equal 0. *)
Definition is_zero (a : float64) : bool :=
  match a with
  | Finite x => if Req_dec_T x 0 then true else false
  | _ => false
  end.

(** A float64 array of shape (3,). *)
Record fvec3 : Type := FV3 { fx : float64; fy : float64; fz : float64 }.

(** An array of real numbers as a float64 array. *)
Definition of_vec3 (v : vec3) : fvec3 :=
  FV3 (Finite (vx v)) (Finite (vy v)) (Finite (vz v)).

Definition nan3 : fvec3 := FV3 NaN NaN NaN.

(** [v / c] for a scalar [c] *)
Definition fvdiv (v : fvec3) (c : float64) : fvec3 :=
  FV3 (fdiv (fx v) c) (fdiv (fy v) c) (fdiv (fz v) c).

(** [np.linalg.norm(v)]: [sqrt(v.dot(v))]. *)
Definition fnorm (v : fvec3) : float64 :=
  fsqrt (fadd (fadd (fmul (fx v) (fx v)) (fmul (fy v) (fy v)))
           (fmul (fz v) (fz v))).

End Float64.

Export Float64.

(** [normalize] on float64: a norm that is nan or inf does not equal 0, and
    the vector is divided by it. *)
Definition normalize64 (v : fvec3) : fvec3 :=
  let norm := fnorm v in
  if is_zero norm then v else fvdiv v norm.

(** [[normalize(v) for v in (storage / processed_frames)]] on float64; the
    sums are arrays of real numbers and the count a Python int. *)
Definition mean_orientations64 (storage : array) (processed_frames : nat)
  : list fvec3 :=
  map normalize64
    (map (fun v => fvdiv (of_vec3 v) (Finite (INR processed_frames))) storage).

Definition prep_pos_for_json64 (conf : list fvec3) : list (list float64) :=
  map (fun p => [fx p; fy p; fz p]) conf.

(** Lines 300-305: the entries a1_mean and a3_mean of the final record, on
    float64. *)
Definition a1_mean64 (r : partial_result) : list (list float64) :=
  prep_pos_for_json64 (mean_orientations64 (res_a1 r) (res_confid r)).

Definition a3_mean64 (r : partial_result) : list (list float64) :=
  prep_pos_for_json64 (mean_orientations64 (res_a3 r) (res_confid r)).

(** ** Scripts: the process state, exits and exceptions *)

(** Python values, as far as the scripts' module-level names hold them. *)
#[local] Set Warnings "-register-all".
Inductive pyval : Type :=
| PNone
| PBool (b : bool)
| PInt (n : Z)
| PFloat (x : R)
| PStr (s : string)
| PList (l : list pyval)
| PObject (repr : string).

Inductive exception : Type :=
| NameError (name : string)
| TypeError (msg : string)
| ValueError (msg : string).

(** How a script, or a part of one, ends. *)
Inductive outcome (A : Type) : Type :=
| Returns (a : A)
| Exits (status : Z)
| Raises (e : exception).
Arguments Returns {A} a.
Arguments Exits {A} status.
Arguments Raises {A} e.

(** What a running script can change: the names bound at module level, the
    files it has written, the lines printed on stderr and stdout, and the
    number of configurations fetched from trajectory files. *)
Record process : Type := Process {
  names : gmap string pyval;
  files : gmap string string;
  stderr : list string;
  stdout : list string;
  confs_read : nat
}.

Definition script (A : Type) : Type := process -> process * outcome A.

Definition ret {A : Type} (a : A) : script A := fun p => (p, Returns a).

Definition bind {A B : Type} (m : script A) (k : A -> script B) : script B :=
  fun p =>
    match m p with
    | (p, Returns a) => k a p
    | (p, Exits status) => (p, Exits status)
    | (p, Raises e) => (p, Raises e)
    end.

Declare Scope script_scope.
Delimit Scope script_scope with script.
Notation "x <~ m ;; k" := (bind m (fun x => k))
  (at level 100, m at next level, right associativity) : script_scope.
Notation "m ;; k" := (bind m (fun _ => k))
  (at level 100, right associativity) : script_scope.
Open Scope script_scope.

(** [exit(status)] *)
Definition exit {A : Type} (status : Z) : script A := fun p => (p, Exits status).

Definition raise {A : Type} (e : exception) : script A := fun p => (p, Raises e).

(** [print(msg, file=stderr)] *)
Definition print_stderr (msg : string) : script unit :=
  fun p => (Process (names p) (files p) (stderr p ++ [msg]) (stdout p)
              (confs_read p), Returns tt).

(** [name = v] at module level. *)
Definition store (name : string) (v : pyval) : script unit :=
  fun p => (Process (<[name := v]> (names p)) (files p) (stderr p) (stdout p)
              (confs_read p), Returns tt).

(** The builtins a module-level name falls back on. *)
Definition builtins : list string :=
  ["print"; "len"; "zip"; "range"; "enumerate"; "open"; "min"; "max";
   "float"; "str"; "int"; "list"; "sum"; "abs"; "True"; "False"; "None"]%string.

(** A module-level name evaluated: the module's binding, a builtin, or
    NameError. *)
Definition load (name : string) : script pyval :=
  fun p =>
    match names p !! name with
    | Some v => (p, Returns v)
    | None =>
        if existsb (String.eqb name) builtins
        then (p, Returns (PObject name))
        else (p, Raises (NameError name))
    end.

(** [open(name, 'w+')]: the file is created, or truncated. *)
Definition open_w (name : string) : script unit :=
  fun p => (Process (names p) (<[name := EmptyString]> (files p)) (stderr p)
              (stdout p) (confs_read p), Returns tt).

(** [f.write(v)] on the file opened as [name]: only a str can be written. *)
Definition write (name : string) (v : pyval) : script unit :=
  fun p =>
    match v with
    | PStr s =>
        (Process (names p)
           (<[name := String.append (default EmptyString (files p !! name)) s]>
              (files p))
           (stderr p) (stdout p) (confs_read p), Returns tt)
    | _ => (p, Raises (TypeError "write() argument must be str"))
    end.

(** ** compute_mean.py: the script up to the choice of the output file *)

(** The namespace [parse_args] returns: [nargs=1] options are one-element
    lists, or None when the option is absent. *)
Record cm_args : Type := CmArgs {
  trajectory : list string;
  topology : list string;
  args_parallel : option (list nat);
  output : option (list string);
  format : option (list string);
  deviations : option (list string);
  index_file : option (list string);
  align : option (list string)
}.

(** [if args.option:] for an option that holds a list: None and the empty
    list are false. *)
Definition given {A : Type} (opt : option (list A)) : option (list A) :=
  match opt with
  | Some ((_ :: _) as l) => Some l
  | _ => None
  end.

(** [tok in l] for a list of strings. *)
Definition str_in (tok : string) (l : list string) : bool :=
  existsb (String.eqb tok) l.

(** Lines 176-192: the output formats.  [outjson == outoxdna == False] is
    Python's chained comparison. *)
Definition parse_format (format : option (list string)) : script (bool * bool) :=
  let outjson := false in
  let outoxdna := false in
  match given format with
  | Some format =>
      let outjson := if str_in "json" format then true else outjson in
      let outoxdna :=
        if str_in "oxDNA" format || str_in "oxdna" format then true
        else outoxdna in
      let '(outjson, outoxdna) :=
        if str_in "both" format then (true, true) else (outjson, outoxdna) in
      if Bool.eqb outjson outoxdna && Bool.eqb outoxdna false then
        (* the first line of the message *)
        print_stderr "ERROR: unrecognized output format" ;;
        exit 1
      else ret (outjson, outoxdna)
  | None =>
      print_stderr "INFO: No output format specified, defaulting to oxDNA" ;;
      ret (outjson, true)
  end.

(** Lines 194-205: the name of the output file. *)
Definition choose_outfile (output : option (list string))
    (outjson outoxdna : bool) : script string :=
  match given output with
  | Some output => ret (hd EmptyString output)
  | None =>
      ext <~ (if outjson && negb outoxdna then ret ".json"%string
              else if outjson && outoxdna then ret ".json/.dat"%string
              else if outoxdna && negb outjson then ret ".dat"%string
              else raise (NameError "ext")) ;;
      let outfile := String.append "mean" ext in
      print_stderr "INFO: No outfile name provided" ;;
      ret outfile
  end.

Section ComputeMeanMain.

(** [config.check_dependencies], which is not among the sources. *)
Variable check_dependencies : list string -> script unit.

(** Lines 207-352, which read the index or topology file, count and read
    the configurations of the trajectory, compute the mean and write the
    output files: any script of the parsed options. *)
Variable compute_and_write : cm_args -> bool -> bool -> string -> script unit.

(** Lines 163-352, after [parse_args].  Lines 168-174 bind names and
    import the parallelizer; they read and write nothing. *)
Definition compute_mean_main (args : cm_args) : script unit :=
  check_dependencies ["python"; "Bio"; "numpy"]%string ;;
  fmt <~ parse_format (format args) ;;
  let '(outjson, outoxdna) := fmt in
  outfile <~ choose_outfile (output args) outjson outoxdna ;;
  compute_and_write args outjson outoxdna outfile.

End ComputeMeanMain.

(** ** distance.py *)

Module Distance.

(** The namespace [parse_args] returns: every [-i] adds one list of four
    strings to [input]; the other options are one-element lists, or None. *)
Record args : Type := Args {
  input : option (list (string * string * string * string));
  output : option (list string);
  format : option (list string);
  data : option (list string)
}.

Definition str_list (l : list string) : pyval := PList (map PStr l).

Definition float_list (l : list R) : pyval := PList (map PFloat l).

(** [len(v)] *)
Definition py_len (v : pyval) : script nat :=
  match v with
  | PList l => ret (length l)
  | PStr s => ret (String.length s)
  | _ => raise (TypeError "object has no len()")
  end.

(** A value used as a file name. *)
Definition as_str (v : pyval) : script string :=
  match v with
  | PStr s => ret s
  | _ => raise (TypeError "expected str")
  end.

(** [str(i)] for a non-negative int. *)
Definition str_of_nat (i : nat) : string :=
  pretty i.

(** [name[:name.find(".")] + str(i) + name[name.find("."):]]; [find] gives
    -1 when there is no dot, and the slices then cut before the last
    character. *)
Definition numbered_name (name : string) (i : nat) : string :=
  let len := String.length name in
  let k := match String.index 0 "." name with
           | Some k => k
           | None => (len - 1)%nat
           end in
  substring 0 k name +:+ str_of_nat i +:+ substring k (len - k) name.

Section Script.

(** [config.PROCESSPROGRAM], which is not among the sources. *)
Variable PROCESSPROGRAM : string.

(** [subprocess.run(launchargs, ...)]: the stdout and stderr of DNAnalysis. *)
Variable subprocess_run : list string -> string * string.

(** The number of lines of [err] with CRITICAL or ERROR in them. *)
Variable error_lines : string -> nat.

(** [[float(i.split()[1])*0.85 for i in out.strip().split('\n')]], which
    raises on a line without a second field or with one that is no number. *)
Variable parse_distances : string -> option (list R).

(** Lines 89-133: the plots. *)
Variable make_plots : args -> script unit.

(** Lines 20-31. *)
Definition read_arguments (a : args) : script unit :=
  store "parser" (PObject "ArgumentParser") ;;
  store "args" (PObject "Namespace") ;;
  match input a with
  | None => raise (TypeError "'NoneType' object is not iterable")
  | Some inp =>
      let inputfiles := map (fun i => i.1.1.1) inp in
      let trajectories := map (fun i => i.1.1.2) inp in
      let p1s := map (fun i => i.1.2) inp in
      let p2s := map (fun i => i.2) inp in
      store "inputfiles" (str_list inputfiles) ;;
      store "trajectories" (str_list trajectories) ;;
      store "p1s" (str_list p1s) ;;
      store "p2s" (str_list p2s) ;;
      if negb (length inputfiles =? length trajectories)%nat
         && negb (length trajectories =? length p1s)%nat
         && negb (length p1s =? length p2s)%nat
      then print_stderr "ERROR: bad input arguments" ;; exit 1
      else ret tt
  end.

(** Lines 33-38. *)
Definition choose_outfile (a : args) : script unit :=
  match given (output a) with
  | Some o => store "outfile" (PStr (hd EmptyString o))
  | None =>
      print_stderr "INFO: No outfile name provided" ;;
      store "outfile" (PStr "distance.png")
  end.

(** Lines 40-56. *)
Definition parse_format (a : args) : script unit :=
  store "hist" (PBool false) ;;
  store "lineplt" (PBool false) ;;
  match given (format a) with
  | Some fmt =>
      let hist := str_in "histogram" fmt || str_in "both" fmt in
      let lineplt := str_in "trajectory" fmt || str_in "both" fmt in
      store "hist" (PBool hist) ;;
      store "lineplt" (PBool lineplt) ;;
      if Bool.eqb hist lineplt && Bool.eqb lineplt false then
        print_stderr "ERROR: unrecognized graph format" ;;
        exit 1
      else ret tt
  | None =>
      print_stderr "INFO: No graph format specified, defaulting to histogram" ;;
      store "hist" (PBool true)
  end.

Definition command_for_data (particle_1 particle_2 : string) : string :=
  "analysis_data_output_1 = { name = stdout print_every = 1 col_1 = { type=step } col_2 = { type=distance particle_1="
  +:+ particle_1 +:+ " particle_2=" +:+ particle_2 +:+ " PBC=true } }".

(** The two lines printed for every line of [err] that reports an error. *)
Fixpoint report_errors (n : nat) (err : string) : script unit :=
  match n with
  | O => ret tt
  | S n =>
      print_stderr "ERROR: DNAnalysis encountered an error" ;;
      print_stderr err ;;
      report_errors n err
  end.

(** Lines 61-74: DNAnalysis run on every input; [distances] is the list
    the loop appends to. *)
Fixpoint run_inputs (i : nat)
    (inputs : list (string * string * string * string))
    (distances : list pyval) : script unit :=
  match inputs with
  | [] => ret tt
  | (inputfile, dat_file, particle_1, particle_2) :: inputs =>
      store "i" (PInt (Z.of_nat i)) ;;
      store "inputfile" (PStr inputfile) ;;
      store "dat_file" (PStr dat_file) ;;
      store "particle_1" (PStr particle_1) ;;
      store "particle_2" (PStr particle_2) ;;
      let command := command_for_data particle_1 particle_2 in
      store "command_for_data" (PStr command) ;;
      let launchargs :=
        [PROCESSPROGRAM; inputfile; "trajectory_file=" +:+ dat_file; command] in
      store "launchargs" (str_list launchargs) ;;
      print_stderr ("INFO: running DNAnalysis on file " +:+ dat_file) ;;
      let '(out, err) := subprocess_run launchargs in
      store "myinput" (PObject "CompletedProcess") ;;
      store "out" (PStr out) ;;
      store "err" (PStr err) ;;
      store "line" (PStr err) ;;
      report_errors (error_lines err) err ;;
      match parse_distances out with
      | None => raise (ValueError "could not convert string to float")
      | Some l =>
          let distances := distances ++ [float_list l] in
          store "distances" (PList distances) ;;
          run_inputs (S i) inputs distances
      end
  end.

(** Lines 12-74: everything before the dump of the data. *)
Definition before_dump (a : args) : script unit :=
  read_arguments a ;;
  choose_outfile a ;;
  parse_format a ;;
  store "distances" (PList []) ;;
  run_inputs 0 (default [] (input a)) [].

(** Lines 80-84: one numbered file per dataset. *)
Fixpoint dump_each (datafile : string) (i : nat) (distances : list pyval)
  : script unit :=
  match distances with
  | [] => ret tt
  | d :: distances =>
      store "i" (PInt (Z.of_nat i)) ;;
      store "data" d ;;
      let out := numbered_name datafile i in
      store "out" (PStr out) ;;
      open_w out ;;
      store "f" (PObject "file") ;;
      print_stderr ("INFO: Writing DNAnalysis output to file " +:+ out) ;;
      v <~ load "data" ;;
      write out v ;;
      dump_each datafile (S i) distances
  end.

(** Lines 76-87: the dump of the DNAnalysis output.  Every name the step
    reads is looked up in the module's namespace. *)
Definition data_dump (a : args) : script unit :=
  match given (data a) with
  | Some d =>
      store "datafile" (PStr (hd EmptyString d)) ;;
      distances <~ load "distances" ;;
      n <~ py_len distances ;;
      if (1 <? n)%nat then
        datafile <~ load "datafile" ;;
        datafile <~ as_str datafile ;;
        dump_each datafile 0
          (match distances with PList l => l | _ => [] end)
      else
        datafile <~ load "datafile" ;;
        datafile <~ as_str datafile ;;
        open_w datafile ;;
        store "f" (PObject "file") ;;
        v <~ load "data" ;;
        write datafile v
  | None => ret tt
  end.

(** The names the imports of lines 3-10 bind, in a fresh module. *)
Definition imported : gmap string pyval :=
  list_to_map
    (map (fun n => (n, PObject n))
       ["np"; "environ"; "path"; "exit"; "stderr"; "subprocess"; "argparse";
        "plt"; "PROCESSPROGRAM"; "time"]%string).

(** The process at the start of the script, over the files on disk. *)
Definition start (disk : gmap string string) : process :=
  Process (<["__name__" := PStr "__main__"]> imported) disk [] [] 0.

Definition main (a : args) : script unit :=
  before_dump a ;;
  data_dump a ;;
  make_plots a.

End Script.

End Distance.

(** ** Definitions the properties are stated with *)

(** The rotation of one vector by [rot] and nothing else: the row vector
    times the matrix. *)
Definition rotated (rot : mat3) (v : vec3) : vec3 :=
  V3 (vx v * vx (mrow0 rot) + vy v * vx (mrow1 rot) + vz v * vx (mrow2 rot))
     (vx v * vy (mrow0 rot) + vy v * vy (mrow1 rot) + vz v * vy (mrow2 rot))
     (vx v * vz (mrow0 rot) + vy v * vz (mrow1 rot) + vz v * vz (mrow2 rot)).

(** Configurations folded into a state one after the other: the body of the
    loop of [compute_mean] without its tests. *)
Fixpoint accumulate_all (sup : array -> array -> option (mat3 * vec3))
    (inbox : system -> system) (indexes : list nat) (parallel : bool)
    (INTERMEDIATE_EVERY : nat) (frames : list system) (st : cm_state)
  : option cm_state :=
  match frames with
  | [] => Some st
  | f :: frames =>
      st ← accumulate sup inbox indexes f st;
      accumulate_all sup inbox indexes parallel INTERMEDIATE_EVERY frames
        (intermediate_mean parallel INTERMEDIATE_EVERY st)
  end.

(** A configuration the accumulator takes without an exception: the
    superimposer gives a fit against [align_conf] and the configuration has
    [n_nuc] particles. *)
Definition admissible (sup : array -> array -> option (mat3 * vec3))
    (inbox : system -> system) (indexes : list nat) (n_nuc : nat)
    (align_conf : array) (f : system) : Prop :=
  is_Some (sup align_conf (indexed_fetch_np indexes (inbox f))) /\
  _N (inbox f) = n_nuc.

(** The state [compute_mean] starts from. *)
Definition initial_state (n_nuc : nat) (align_conf : array) : cm_state :=
  CmState align_conf (zeros n_nuc) (zeros n_nuc) (zeros n_nuc) [] 0.

(** The three sums of a state have [n] rows. *)
Definition shaped (n : nat) (st : cm_state) : Prop :=
  length (mean_pos_storage st) = n /\
  length (mean_a1_storage st) = n /\
  length (mean_a3_storage st) = n.

(** The three arrays one configuration adds to the sums, against the
    reference [align_conf]. *)
Definition term_pos (sup : array -> array -> option (mat3 * vec3))
    (inbox : system -> system) (indexes : list nat) (align_conf : array)
    (f : system) : array :=
  match sup align_conf (indexed_fetch_np indexes (inbox f)) with
  | Some (rot, tran) => add_bcast (map (rotated rot) (fetch_np (inbox f))) tran
  | None => []
  end.

Definition term_a1 (sup : array -> array -> option (mat3 * vec3))
    (inbox : system -> system) (indexes : list nat) (align_conf : array)
    (f : system) : array :=
  match sup align_conf (indexed_fetch_np indexes (inbox f)) with
  | Some (rot, tran) => map (rotated rot) (fetch_a1 (inbox f))
  | None => []
  end.

Definition term_a3 (sup : array -> array -> option (mat3 * vec3))
    (inbox : system -> system) (indexes : list nat) (align_conf : array)
    (f : system) : array :=
  match sup align_conf (indexed_fetch_np indexes (inbox f)) with
  | Some (rot, tran) => map (rotated rot) (fetch_a3 (inbox f))
  | None => []
  end.

(** The sum of the arrays [term f] over the configurations [fs], from
    [n] rows of zeros. *)
Definition total (term : system -> array) (n : nat) (fs : list system) : array :=
  fold_left zip_add (map term fs) (zeros n).

(** The arithmetic mean of a point set, coordinate by coordinate: the
    centroid in the words of the specification, written out without
    [compute_cms]. *)
Definition arithmetic_mean (P : array) : vec3 :=
  let n := INR (length P) in
  V3 (fold_right Rplus 0 (map vx P) / n)
     (fold_right Rplus 0 (map vy P) / n)
     (fold_right Rplus 0 (map vz P) / n).

(** Two partial results with the same three sums and the same count;
    their intermediate means may differ. *)
Definition same_sums (r r' : partial_result) : Prop :=
  res_pos r = res_pos r' /\ res_a1 r = res_a1 r' /\ res_a3 r = res_a3 r' /\
  res_confid r = res_confid r'.

(** Two final records with the same mean positions, mean orientations and
    number of processed frames. *)
Definition same_means (m m' : mean_file) : Prop :=
  g_mean m = g_mean m' /\ a1_mean m = a1_mean m' /\ a3_mean m = a3_mean m' /\
  p_frames m = p_frames m'.

(** The configurations of the range [start, stop). *)
Definition range_of (frames : list system) (chunk : nat * nat) : list system :=
  firstn (chunk.2 - chunk.1) (skipn chunk.1 frames).

(** A small trajectory to run the accumulator on: one particle at
    (1, 0, 0), and a superimposer that always answers the identity rotation
    and no translation. *)
Definition identity3 : mat3 := M3 (V3 1 0 0) (V3 0 1 0) (V3 0 0 1).

Definition sup_identity (reference coords : array) : option (mat3 * vec3) :=
  Some (identity3, zeros3).

(** A configuration that is in the box already. *)
Definition in_box (conf : system) : system := conf.

Definition one_particle : system :=
  System 0 [Nucleotide 0 (V3 1 0 0) (V3 1 0 0) (V3 0 0 1)].

Definition still_trajectory (F : nat) : LorenzoReader2 := repeat one_particle F.

Definition still_reference : array := [zeros3].

(** Stand-ins for what the two scripts call outside the sources, to run
    them on: a dependency check that passes, a remainder of compute_mean.py
    that reads one configuration and writes the output file, a DNAnalysis
    that prints one line, and plots that draw nothing. *)
Definition dependencies_met (deps : list string) : script unit := ret tt.

Definition read_one_write_one (args : cm_args) (outjson outoxdna : bool)
    (outfile : string) : script unit :=
  fun p => (Process (names p) (<[outfile := "mean"%string]> (files p))
              (stderr p) (stdout p) (S (confs_read p)), Returns tt).

Definition one_line_dnanalysis (launchargs : list string) : string * string :=
  ("0 1.0"%string, EmptyString).

Definition no_error_lines (err : string) : nat := O.

Definition one_distance (out : string) : option (list R) := Some [1 * 0.85].

Definition no_plots (a : Distance.args) : script unit := ret tt.

Definition one_dataset : Distance.args :=
  Distance.Args (Some [("input", "trajectory.dat", "1", "2")]%string) None None
    (Some ["distances.txt"%string]).

(** ** compute_mean.py: the choice of the reference and the output names *)

Section ReferenceSelector.

(** Python's [int] on a string, which raises ValueError ([None]) on what
    is no integer literal. *)
Variable int : string -> option Z.

Variable inbox : system -> system.

(** [pick_starting_configuration] (lines 13-40).  The module-level
    [args.align] and the number [randint(0, max_bound-1)] draws are arguments;
    [randint] raises on an empty range.  A reader is opened on the trajectory
    for the call and closed when it returns; [_get_system] skips nothing for
    an [N_skip] below 0. *)
Definition pick_starting_configuration (align : option (list string))
    (randint : Z) (traj_file : LorenzoReader2) (max_bound : nat)
  : script (Z * system) :=
  stop_at <~ match given align with
             | Some align =>
                 match int (hd EmptyString align) with
                 | Some stop_at => ret stop_at
                 | None => raise (ValueError "invalid literal for int()")
                 end
             | None =>
                 if (Z.of_nat max_bound - 1 <? 0)%Z
                 then raise (ValueError "empty range for randrange()")
                 else ret randint
             end ;;
  print_stderr ("INFO: We chose " +:+ pretty stop_at +:+ " as reference") ;;
  match (_get_system (Z.to_nat stop_at) traj_file).1 with
  | None =>
      print_stderr ("ERROR: Couldn't read structure at conf num "
                    +:+ pretty stop_at +:+ ".  Something has gone weird") ;;
      exit 1
  | Some initial_structure =>
      print_stderr "INFO: reference structure loaded" ;;
      ret (stop_at, inbox initial_structure)
  end.

End ReferenceSelector.

(** [s.split(".")[0]]: the string up to its first dot. *)
Fixpoint before_dot (s : string) : string :=
  match s with
  | EmptyString => EmptyString
  | String c s =>
      if Ascii.eqb c "."%char then EmptyString else String c (before_dot s)
  end.

(** [if dev_file:] for the name of the deviations file: None and the empty
    string are false. *)
Definition named (dev_file : option string) : bool :=
  match dev_file with
  | Some (String _ _) => true
  | _ => false
  end.

(** Lines 314-320: the name of the json file, when one is written. *)
Definition jsonfile (outjson outoxdna : bool) (dev_file : option string)
    (outfile : string) : option string :=
  if outjson || named dev_file then
    Some (if outoxdna then before_dot outfile +:+ ".json" else outfile)
  else None.

(** Lines 325-331: the name of the oxDNA file, when one is written. *)
Definition outname (outjson outoxdna : bool) (outfile : string)
  : option string :=
  if outoxdna then
    Some (if outjson then before_dot outfile +:+ ".dat" else outfile)
  else None.

(** The mean position of the first [c] configurations of [fs], as an
    intermediate mean has it. *)
Definition mean_so_far (term : system -> array) (n : nat) (fs : list system)
    (c : nat) : list (list R) :=
  prep_pos_for_json (arr_div (total term n (firstn c fs)) (INR c)).

(** ** Vectors: sums, norms and centres of mass *)

Lemma vec3_eq (a b : vec3) :
  vx a = vx b -> vy a = vy b -> vz a = vz b -> a = b.
Proof. destruct a, b; simpl; intros; subst; reflexivity. Qed.

Lemma fold_vadd_shift (P : array) (a d : vec3) :
  fold_left vadd P (vadd a d) = vadd (fold_left vadd P a) d.
Proof.
  revert a; induction P as [|p P IH]; intros a; simpl; [reflexivity|].
  rewrite <- IH. f_equal.
  apply vec3_eq; simpl; lra.
Qed.

Lemma fold_vadd_sub_bcast (P : array) (c acc : vec3) :
  fold_left vadd (sub_bcast P c) acc
  = vsub (fold_left vadd P acc)
      (V3 (INR (length P) * vx c) (INR (length P) * vy c)
          (INR (length P) * vz c)).
Proof.
  revert acc; induction P as [|p P IH]; intros acc.
  - simpl. apply vec3_eq; simpl; lra.
  - cbn [sub_bcast map fold_left]. fold (sub_bcast P c).
    rewrite IH. cbn [length]. rewrite S_INR.
    replace (vadd acc (vsub p c)) with (vadd (vadd acc p) (V3 (- vx c) (- vy c) (- vz c)))
      by (apply vec3_eq; simpl; lra).
    rewrite fold_vadd_shift.
    apply vec3_eq; simpl; lra.
Qed.

Lemma length_sub_bcast (P : array) (c : vec3) :
  length (sub_bcast P c) = length P.
Proof. apply length_map. Qed.

Lemma norm_zeros3 : norm zeros3 = 0.
Proof.
  unfold norm, zeros3; simpl.
  replace (0 * 0 + 0 * 0 + 0 * 0) with 0 by lra. apply sqrt_0.
Qed.

Lemma norm_eq_0 (v : vec3) : norm v = 0 -> v = zeros3.
Proof.
  unfold norm. intros H.
  apply sqrt_eq_0 in H; [|nra].
  apply vec3_eq; simpl; nra.
Qed.

Lemma norm_vdiv_norm (v : vec3) : norm v <> 0 -> norm (vdiv v (norm v)) = 1.
Proof.
  intros Hn.
  assert (Hsq : norm v * norm v = vx v * vx v + vy v * vy v + vz v * vz v).
  { unfold norm. apply sqrt_sqrt. nra. }
  unfold norm at 1. simpl.
  replace (vx v / norm v * (vx v / norm v) + vy v / norm v * (vy v / norm v)
           + vz v / norm v * (vz v / norm v))
    with ((vx v * vx v + vy v * vy v + vz v * vz v) / (norm v * norm v))
    by (field; exact Hn).
  rewrite <- Hsq.
  replace (norm v * norm v / (norm v * norm v)) with 1 by (field; exact Hn).
  apply sqrt_1.
Qed.

Lemma vdiv_zeros3 (c : R) : vdiv zeros3 c = zeros3.
Proof. apply vec3_eq; simpl; unfold Rdiv; apply Rmult_0_l. Qed.


Lemma normalize_zeros3 : normalize zeros3 = zeros3.
Proof.
  unfold normalize. destruct (Req_dec_T (norm zeros3) 0) as [_|H].
  - reflexivity.
  - destruct (H norm_zeros3).
Qed.

Lemma normalize_unit (v : vec3) : v <> zeros3 -> norm (normalize v) = 1.
Proof.
  intros Hv. unfold normalize.
  destruct (Req_dec_T (norm v) 0) as [H|H].
  - destruct (Hv (norm_eq_0 v H)).
  - apply norm_vdiv_norm, H.
Qed.

Lemma lookup_map {A B : Type} (f : A -> B) (l : list A) (i : nat) :
  map f l !! i = f <$> (l !! i).
Proof.
  revert i; induction l as [|x l IH]; intros [|i]; simpl; auto.
Qed.

Lemma INR_pos_neq_0 (n : nat) : (0 < n)%nat -> INR n <> 0.
Proof. intros H. apply not_0_INR. lia. Qed.

Lemma fold_vadd_sums (P : array) (acc : vec3) :
  fold_left vadd P acc
  = V3 (vx acc + fold_right Rplus 0 (map vx P))
       (vy acc + fold_right Rplus 0 (map vy P))
       (vz acc + fold_right Rplus 0 (map vz P)).
Proof.
  revert acc; induction P as [|p P IH]; intros acc; cbn [fold_left map fold_right].
  - apply vec3_eq; simpl; lra.
  - rewrite IH. apply vec3_eq; simpl; lra.
Qed.

(** [compute_cms] is the arithmetic mean of its points. *)
Lemma compute_cms_is_mean (P : array) : compute_cms P = arithmetic_mean P.
Proof.
  unfold compute_cms, arithmetic_mean. rewrite fold_vadd_sums.
  apply vec3_eq; simpl; unfold Rdiv; ring.
Qed.

(** C7.  For every non-empty point set P, [compute_cms P] is the
    arithmetic mean of the points of P; the recentred set holds, point by
    point, the points of P minus this mean; and its centroid is the zero
    vector, measured as the arithmetic mean of its points and as
    [compute_cms] gives it.  So has the recentred reference point set of the
    Reference Selector, whenever the reference configuration gives P. *)
Theorem recentred_cms_is_origin (indexes : list nat) (conf : system) (P : array) :
  P <> [] ->
  compute_cms P = arithmetic_mean P /\
  (forall i p,
      P !! i = Some p ->
      exists q,
        sub_bcast P (compute_cms P) !! i = Some q /\
        vx q = vx p - vx (arithmetic_mean P) /\
        vy q = vy p - vy (arithmetic_mean P) /\
        vz q = vz p - vz (arithmetic_mean P)) /\
  arithmetic_mean (sub_bcast P (compute_cms P)) = zeros3 /\
  compute_cms (sub_bcast P (compute_cms P)) = zeros3 /\
  (indexed_fetch_np indexes conf = P ->
   arithmetic_mean (recentre_reference indexes conf) = zeros3 /\
   compute_cms (recentre_reference indexes conf) = zeros3).
Proof.
  intros HP.
  assert (Hn : INR (length P) <> 0).
  { apply INR_pos_neq_0. destruct P; [congruence | simpl; lia]. }
  assert (H : compute_cms (sub_bcast P (compute_cms P)) = zeros3).
  { unfold compute_cms at 1. rewrite fold_vadd_sub_bcast, length_sub_bcast.
    unfold compute_cms.
    apply vec3_eq; simpl; field; exact Hn. }
  assert (H' : arithmetic_mean (sub_bcast P (compute_cms P)) = zeros3)
    by (rewrite <- compute_cms_is_mean; exact H).
  split; [apply compute_cms_is_mean|]. split.
  { intros i p Hi. exists (vsub p (compute_cms P)). split.
    - unfold sub_bcast. rewrite lookup_map, Hi. reflexivity.
    - rewrite <- compute_cms_is_mean. repeat split; reflexivity. }
  split; [exact H'|]. split; [exact H|].
  intros E. unfold recentre_reference. rewrite E. split; assumption.
Qed.

Lemma recentred_cms_is_origin_witness :
  [V3 1 0 0; V3 3 2 0] <> [] /\
  compute_cms [V3 1 0 0; V3 3 2 0] = arithmetic_mean [V3 1 0 0; V3 3 2 0] /\
  arithmetic_mean
    (sub_bcast [V3 1 0 0; V3 3 2 0] (compute_cms [V3 1 0 0; V3 3 2 0]))
  = zeros3.
Proof.
  split; [discriminate|].
  destruct (recentred_cms_is_origin [] (System 0 []) [V3 1 0 0; V3 3 2 0])
    as (Hm & _ & Hz & _); [discriminate|].
  split; [exact Hm | exact Hz].
Defined.


(** The two lists of mean orientations of the final record are
    [mean_orientations] of the two orientation sums over the count. *)
Lemma finalize_orientations (r : partial_result) (align_conf : array)
    (align_conf_id : nat) :
  a1_mean (finalize r align_conf align_conf_id)
  = prep_pos_for_json (mean_orientations (res_a1 r) (res_confid r)) /\
  a3_mean (finalize r align_conf align_conf_id)
  = prep_pos_for_json (mean_orientations (res_a3 r) (res_confid r)).
Proof. destruct r as [[[[pos a1] a3] snaps] count]. split; reflexivity. Qed.


(** *** The Finalizer on float64 *)

Lemma fvdiv_of_vec3 (v : vec3) (c : R) :
  c <> 0 -> fvdiv (of_vec3 v) (Finite c) = of_vec3 (vdiv v c).
Proof.
  intros Hc. unfold fvdiv, of_vec3, vdiv, fdiv. cbn [fx fy fz vx vy vz].
  destruct (Req_dec_T c 0) as [H|_]; [contradiction | reflexivity].
Qed.

Lemma fnorm_of_vec3 (v : vec3) : fnorm (of_vec3 v) = Finite (norm v).
Proof.
  unfold fnorm, of_vec3, norm. cbn [fx fy fz fmul fadd fsqrt].
  destruct (Rlt_dec (vx v * vx v + vy v * vy v + vz v * vz v) 0) as [H|_];
    [nra | reflexivity].
Qed.

(** On real numbers the two embeddings of [normalize] agree. *)
Lemma normalize64_of_vec3 (v : vec3) :
  normalize64 (of_vec3 v) = of_vec3 (normalize v).
Proof.
  unfold normalize64, normalize. rewrite fnorm_of_vec3. cbn [is_zero].
  destruct (Req_dec_T (norm v) 0) as [_|Hn]; [reflexivity|].
  apply fvdiv_of_vec3, Hn.
Qed.

(** With at least one processed frame the Finalizer stays within the real
    numbers. *)
Lemma mean_orientations64_finite (storage : array) (processed_frames : nat) :
  (0 < processed_frames)%nat ->
  mean_orientations64 storage processed_frames
  = map of_vec3 (mean_orientations storage processed_frames).
Proof.
  intros Hc. unfold mean_orientations64, mean_orientations, arr_div.
  rewrite !map_map. apply map_ext. intros v.
  rewrite fvdiv_of_vec3 by (apply INR_pos_neq_0, Hc).
  apply normalize64_of_vec3.
Qed.

(** With no processed frame every mean orientation is (nan, nan, nan),
    whatever the sums are: a component is 0/0 = nan or x/0 = inf, the norm
    is nan or inf, and the quotient by it is nan. *)
Lemma mean_orientations64_zero_frames (storage : array) :
  mean_orientations64 storage 0 = map (fun _ => nan3) storage.
Proof.
  unfold mean_orientations64. rewrite map_map. apply map_ext.
  intros [x y z].
  unfold normalize64, fnorm, fvdiv, of_vec3, fdiv. cbn [fx fy fz vx vy vz INR].
  destruct (Req_dec_T 0 0) as [_|H]; [|contradiction].
  destruct (Req_dec_T x 0), (Req_dec_T y 0), (Req_dec_T z 0);
    destruct (negative x), (negative y), (negative z); reflexivity.
Qed.

Lemma prep_pos_for_json64_of_vec3 (conf : array) :
  prep_pos_for_json64 (map of_vec3 conf) = map (map Finite) (prep_pos_for_json conf).
Proof.
  unfold prep_pos_for_json64, prep_pos_for_json. rewrite !map_map.
  apply map_ext. intros v. reflexivity.
Qed.

(** C5 as it is stated fails at its own example.  The Frame Accumulator
    run on a trajectory without configurations returns zero orientation sums
    and the count 0; the Finalizer then divides 0 by 0, and the mean
    orientation it gives is (nan, nan, nan), not the zero vector: the vector
    [normalize] receives is not the zero vector and its guard is not
    taken. *)
Lemma zero_frames_orientation_is_nan :
  exists r,
    compute_mean sup_identity in_box [0%nat] 1 false 0 [] still_reference 0
      None None = Some r /\
    res_confid r = 0%nat /\
    res_a1 r !! 0%nat = Some zeros3 /\
    a1_mean64 r !! 0%nat = Some [NaN; NaN; NaN] /\
    a1_mean64 r !! 0%nat <> Some [Finite 0; Finite 0; Finite 0].
Proof.
  exists (zeros 1, zeros 1, zeros 1, [], 0%nat).
  split; [reflexivity|]. split; [reflexivity|]. split; [reflexivity|].
  assert (H : a1_mean64 (zeros 1, zeros 1, zeros 1, [], 0%nat) !! 0%nat
              = Some [NaN; NaN; NaN]).
  { unfold a1_mean64. cbn [res_a1 res_confid].
    rewrite mean_orientations64_zero_frames. reflexivity. }
  split; [exact H|]. rewrite H. discriminate.
Qed.

(** C5, as amended.  [normalize] applied to the zero vector returns the
    zero vector unchanged, on the real numbers and on float64; it is a total
    function and no step of it raises, and no step of the Result Finalizer
    does, whatever the sums and the count.  When at least one frame was
    processed the Finalizer stays within the real numbers and gives the zero
    vector for a particle whose orientation sum is zero.  When no frame was
    processed it divides by 0 and every mean orientation it gives is
    (nan, nan, nan). *)
Theorem normalize_zero_vector (r : partial_result) (align_conf : array)
    (align_conf_id i : nat) :
  normalize zeros3 = zeros3 /\
  normalize64 (of_vec3 zeros3) = of_vec3 zeros3 /\
  ((0 < res_confid r)%nat ->
   a1_mean64 r
   = map (map Finite) (a1_mean (finalize r align_conf align_conf_id)) /\
   a3_mean64 r
   = map (map Finite) (a3_mean (finalize r align_conf align_conf_id)) /\
   (res_a1 r !! i = Some zeros3 ->
    a1_mean (finalize r align_conf align_conf_id) !! i = Some [0; 0; 0]) /\
   (res_a3 r !! i = Some zeros3 ->
    a3_mean (finalize r align_conf align_conf_id) !! i = Some [0; 0; 0])) /\
  (res_confid r = 0%nat ->
   a1_mean64 r = map (fun _ => [NaN; NaN; NaN]) (res_a1 r) /\
   a3_mean64 r = map (fun _ => [NaN; NaN; NaN]) (res_a3 r)).
Proof.
  destruct r as [[[[pos a1] a3] snaps] count].
  unfold a1_mean64, a3_mean64.
  cbn [res_a1 res_a3 res_confid finalize a1_mean a3_mean].
  split; [apply normalize_zeros3|].
  split; [rewrite normalize64_of_vec3, normalize_zeros3; reflexivity|].
  split.
  - intros Hc. rewrite !mean_orientations64_finite by exact Hc.
    rewrite !prep_pos_for_json64_of_vec3.
    split; [reflexivity|]. split; [reflexivity|].
    split; intros Hi;
      unfold prep_pos_for_json, mean_orientations, arr_div;
      rewrite !lookup_map, Hi; simpl;
      rewrite vdiv_zeros3, normalize_zeros3; reflexivity.
  - intros ->. rewrite !mean_orientations64_zero_frames.
    unfold prep_pos_for_json64. rewrite !map_map. split; reflexivity.
Qed.

Lemma normalize_zero_vector_witness :
  a1_mean (finalize ([V3 2 0 0], [zeros3], [V3 0 0 2], [], 2%nat) [zeros3] 0)
    !! 0%nat = Some [0; 0; 0] /\
  a1_mean64 ([V3 2 0 0], [zeros3], [V3 0 0 2], [], 2%nat)
  = [[Finite 0; Finite 0; Finite 0]] /\
  a1_mean64 ([zeros3], [zeros3], [zeros3], [], 0%nat) = [[NaN; NaN; NaN]].
Proof.
  destruct (normalize_zero_vector
              ([V3 2 0 0], [zeros3], [V3 0 0 2], [], 2%nat) [zeros3] 0 0)
    as (_ & _ & Hpos & _).
  destruct Hpos as (H64 & _ & H1 & _); [simpl; lia|].
  destruct (normalize_zero_vector
              ([zeros3], [zeros3], [zeros3], [], 0%nat) [zeros3] 0 0)
    as (_ & _ & _ & Hzero).
  destruct Hzero as (Hnan & _); [reflexivity|].
  split; [apply H1; reflexivity|]. split; [|exact Hnan].
  rewrite H64.
  assert (E : a1_mean (finalize ([V3 2 0 0], [zeros3], [V3 0 0 2], [], 2%nat)
                         [zeros3] 0) = [[0; 0; 0]]).
  { specialize (H1 eq_refl).
    destruct (a1_mean _) as [|row [|row' rows]] eqn:Ea;
      [discriminate | | ].
    - cbn in H1. injection H1 as ->. reflexivity.
    - apply (f_equal (@length _)) in Ea. cbn in Ea. discriminate. }
  rewrite E. reflexivity.
Defined.

(** ** The Frame Accumulator: one configuration *)

Section AccumulatorFacts.

Context (sup : array -> array -> option (mat3 * vec3))
  (inbox : system -> system) (indexes : list nat).

Lemma get_system_next (reader : LorenzoReader2) :
  _get_system 0 reader
  = match reader with
    | [] => (None, [])
    | mysystem :: reader => (Some mysystem, reader)
    end.
Proof. destruct reader; reflexivity. Qed.

Lemma einsum_row_rotated (rot : mat3) (p : vec3) :
  einsum_row rot p = rotated rot p.
Proof. apply vec3_eq; unfold einsum_row, rotated; simpl; lra. Qed.

Lemma length_zip_add (a b : array) :
  length a = length b -> length (zip_add a b) = length a.
Proof.
  revert b; induction a as [|x a IH]; intros [|y b] H; simpl in *;
    try congruence.
  f_equal. apply IH. congruence.
Qed.

Lemma iadd_same_shape (a b : array) :
  a <> [] -> length a = length b -> iadd a b = Some (zip_add a b).
Proof.
  intros Ha Hl. destruct a as [|x a]; [congruence|].
  destruct b as [|y b]; [discriminate|].
  destruct b as [|z b].
  - destruct a; [reflexivity | discriminate].
  - unfold iadd. rewrite (proj2 (Nat.eqb_eq _ _) Hl). reflexivity.
Qed.

Lemma iadd_length (a b c : array) : iadd a b = Some c -> length c = length a.
Proof.
  destruct a as [|x a]; [discriminate|].
  destruct b as [|y b]; [discriminate|].
  destruct b as [|z b].
  - intros [= <-]. unfold add_bcast. simpl. now rewrite length_map.
  - unfold iadd. destruct (Nat.eqb_spec (length (x :: a)) (length (y :: z :: b)));
      [|discriminate].
    intros [= <-]. exact (length_zip_add (x :: a) (y :: z :: b) e).
Qed.

Lemma einsum_Some (rot : mat3) (conf : array) :
  conf <> [] -> einsum rot conf = Some (map (rotated rot) conf).
Proof.
  destruct conf as [|p conf]; [congruence|]. intros _. unfold einsum.
  f_equal. apply map_ext. intros. apply einsum_row_rotated.
Qed.

Lemma einsum_inv (rot : mat3) (conf out : array) :
  einsum rot conf = Some out -> conf <> [] /\ out = map (rotated rot) conf.
Proof.
  intros H. assert (conf <> []) by (destruct conf; [discriminate | congruence]).
  split; [assumption|]. rewrite einsum_Some in H by assumption. congruence.
Qed.

(** What [accumulate] does to a state, when it raises nothing. *)
Lemma accumulate_inv (mysystem : system) (st st' : cm_state) :
  accumulate sup inbox indexes mysystem st = Some st' ->
  exists rot tran,
    sup (align_conf st) (indexed_fetch_np indexes (inbox mysystem))
      = Some (rot, tran) /\
    iadd (mean_pos_storage st)
      (add_bcast (map (rotated rot) (fetch_np (inbox mysystem))) tran)
      = Some (mean_pos_storage st') /\
    iadd (mean_a1_storage st) (map (rotated rot) (fetch_a1 (inbox mysystem)))
      = Some (mean_a1_storage st') /\
    iadd (mean_a3_storage st) (map (rotated rot) (fetch_a3 (inbox mysystem)))
      = Some (mean_a3_storage st') /\
    align_conf st' = align_conf st /\
    intermediate_mean_structures st' = intermediate_mean_structures st /\
    confid st' = S (confid st).
Proof.
  unfold accumulate. intros H.
  destruct (sup _ _) as [[rot tran]|] eqn:Hs; [|discriminate].
  exists rot, tran. split; [reflexivity|]. cbn in H.
  destruct (einsum rot (fetch_np _)) as [p|] eqn:Hp; [|discriminate].
  destruct (einsum rot (fetch_a1 _)) as [a1|] eqn:H1; [|discriminate].
  destruct (einsum rot (fetch_a3 _)) as [a3|] eqn:H3; [|discriminate].
  cbn in H.
  destruct (iadd (mean_pos_storage st) _) as [sp|] eqn:Hsp; [|discriminate].
  destruct (iadd (mean_a1_storage st) _) as [s1|] eqn:Hs1; [|discriminate].
  destruct (iadd (mean_a3_storage st) _) as [s3|] eqn:Hs3; [|discriminate].
  cbn in H. injection H as <-. simpl.
  apply einsum_inv in Hp as [_ ->].
  apply einsum_inv in H1 as [_ ->].
  apply einsum_inv in H3 as [_ ->].
  repeat split; assumption.
Qed.

(** An admissible configuration is accumulated without an exception. *)
Lemma accumulate_admissible (n_nuc : nat) (mysystem : system) (st : cm_state) :
  (0 < n_nuc)%nat ->
  shaped n_nuc st ->
  admissible sup inbox indexes n_nuc (align_conf st) mysystem ->
  exists st', accumulate sup inbox indexes mysystem st = Some st' /\
              shaped n_nuc st'.
Proof.
  intros Hn (Hp & H1 & H3) ([[rot tran] Hs] & HN).
  unfold _N in HN. unfold accumulate. rewrite Hs. cbn.
  assert (Hne : _nucleotides (inbox mysystem) <> []).
  { intros E. rewrite E in HN. simpl in HN. lia. }
  assert (forall (g : nucleotide -> vec3),
             map g (_nucleotides (inbox mysystem)) <> []) as Hmap.
  { intros g E. apply Hne. destruct (_nucleotides (inbox mysystem));
      [reflexivity | discriminate]. }
  unfold fetch_np, fetch_a1, fetch_a3.
  rewrite !einsum_Some by apply Hmap. cbn.
  assert (forall a : array, length a = n_nuc -> a <> []) as Hnil.
  { intros a Ha E. subst a. simpl in Ha. lia. }
  rewrite (iadd_same_shape (mean_pos_storage st));
    [|apply Hnil, Hp
     |unfold add_bcast; rewrite !length_map; congruence].
  rewrite (iadd_same_shape (mean_a1_storage st));
    [|apply Hnil, H1 | rewrite !length_map; congruence].
  rewrite (iadd_same_shape (mean_a3_storage st));
    [|apply Hnil, H3 | rewrite !length_map; congruence].
  cbn. eexists; split; [reflexivity|].
  unfold shaped; simpl.
  rewrite !length_zip_add;
    unfold add_bcast; rewrite ?length_map; auto; congruence.
Qed.

Lemma accumulate_shaped (n : nat) (mysystem : system) (st st' : cm_state) :
  shaped n st -> accumulate sup inbox indexes mysystem st = Some st' ->
  shaped n st'.
Proof.
  intros (Hp & H1 & H3) H.
  apply accumulate_inv in H as (rot & tran & _ & Ep & E1 & E3 & _).
  apply iadd_length in Ep, E1, E3. unfold shaped. intuition congruence.
Qed.

End AccumulatorFacts.

(** ** The Frame Accumulator: the loop *)

Section LoopFacts.

Context (sup : array -> array -> option (mat3 * vec3))
  (inbox : system -> system) (indexes : list nat) (n_nuc : nat)
  (parallel : bool) (INTERMEDIATE_EVERY : nat).

Local Abbreviation intermediate_mean' := (intermediate_mean parallel INTERMEDIATE_EVERY).
Local Abbreviation accumulate_all' :=
  (accumulate_all sup inbox indexes parallel INTERMEDIATE_EVERY).

Lemma intermediate_mean_fields (st : cm_state) :
  align_conf (intermediate_mean' st) = align_conf st /\
  mean_pos_storage (intermediate_mean' st) = mean_pos_storage st /\
  mean_a1_storage (intermediate_mean' st) = mean_a1_storage st /\
  mean_a3_storage (intermediate_mean' st) = mean_a3_storage st /\
  confid (intermediate_mean' st) = confid st.
Proof.
  unfold intermediate_mean. destruct (intermediate_due _ _ _); simpl; auto.
Qed.

Lemma intermediate_mean_shaped (n : nat) (st : cm_state) :
  shaped n st -> shaped n (intermediate_mean' st).
Proof.
  unfold shaped. destruct (intermediate_mean_fields st) as (_ & -> & -> & -> & _).
  auto.
Qed.

(** The loop folds the configurations it is given, the one in [mysystem]
    first, until the counter reaches [stop]. *)
Lemma mean_loop_spec (stop : nat) (reader : LorenzoReader2) (mysystem : system)
    (st : cm_state) :
  mean_loop sup inbox indexes parallel INTERMEDIATE_EVERY stop reader mysystem st
  = accumulate_all' (firstn (stop - confid st) (mysystem :: reader)) st.
Proof.
  revert mysystem st. induction reader as [|nxt reader IH]; intros mysystem st;
    cbn [mean_loop]; destruct (Nat.ltb_spec (confid st) stop) as [Hlt|Hge].
  - replace (stop - confid st)%nat with (S (stop - S (confid st))) by lia.
    cbn [firstn accumulate_all]. rewrite firstn_nil.
    destruct (accumulate _ _ _ _ _); reflexivity.
  - replace (stop - confid st)%nat with O by lia. reflexivity.
  - replace (stop - confid st)%nat with (S (stop - S (confid st))) by lia.
    cbn [firstn accumulate_all].
    destruct (accumulate _ _ _ _ _) as [st'|] eqn:Hacc; [|reflexivity].
    cbn. rewrite IH.
    apply accumulate_inv in Hacc as (_ & _ & _ & _ & _ & _ & _ & _ & Hc).
    destruct (intermediate_mean_fields st') as (_ & _ & _ & _ & ->).
    rewrite Hc. reflexivity.
  - replace (stop - confid st)%nat with O by lia. reflexivity.
Qed.

(** [compute_mean] skips [start] configurations and folds the next [stop]
    of them, or as many as the reader has left. *)
Lemma compute_mean_state_spec (reader : LorenzoReader2) (align_conf : array)
    (num_confs start stop : nat) :
  compute_mean_state sup inbox indexes n_nuc parallel INTERMEDIATE_EVERY
    reader align_conf num_confs (Some start) (Some stop)
  = accumulate_all' (firstn stop (skipn start reader))
      (initial_state n_nuc align_conf).
Proof.
  unfold compute_mean_state, _get_system.
  destruct (skipn start reader) as [|mysystem rest].
  - rewrite firstn_nil. reflexivity.
  - rewrite mean_loop_spec. cbn [confid]. rewrite Nat.sub_0_r. reflexivity.
Qed.

Lemma compute_mean_state_defaults (reader : LorenzoReader2) (align_conf : array)
    (num_confs : nat) (start stop : option nat) :
  compute_mean_state sup inbox indexes n_nuc parallel INTERMEDIATE_EVERY
    reader align_conf num_confs start stop
  = compute_mean_state sup inbox indexes n_nuc parallel INTERMEDIATE_EVERY
      reader align_conf num_confs (Some (default O start))
      (Some (default num_confs stop)).
Proof. destruct start, stop; reflexivity. Qed.

Lemma accumulate_all_app (fs gs : list system) (st : cm_state) :
  accumulate_all' (fs ++ gs) st
  = accumulate_all' fs st ≫= accumulate_all' gs.
Proof.
  revert st; induction fs as [|f fs IH]; intros st; [reflexivity|].
  cbn [app accumulate_all].
  destruct (accumulate _ _ _ _ _); cbn; [apply IH | reflexivity].
Qed.

(** The counter is the number of configurations folded, and the reference
    is what it was. *)
Lemma accumulate_all_confid (fs : list system) (st st' : cm_state) :
  accumulate_all' fs st = Some st' ->
  confid st' = (confid st + length fs)%nat /\ align_conf st' = align_conf st.
Proof.
  revert st; induction fs as [|f fs IH]; intros st; cbn [accumulate_all].
  - intros [= <-]. split; [simpl; lia | reflexivity].
  - destruct (accumulate _ _ _ _ _) as [st1|] eqn:Hacc; [|discriminate].
    cbn. intros H. apply IH in H as [Hc Ha].
    apply accumulate_inv in Hacc as (_ & _ & _ & _ & _ & _ & Ha1 & _ & Hc1).
    destruct (intermediate_mean_fields st1) as (Ha2 & _ & _ & _ & Hc2).
    rewrite Hc, Ha, Ha2, Hc2, Ha1, Hc1. split; [simpl; lia | reflexivity].
Qed.

(** Admissible configurations are all folded. *)
Lemma accumulate_all_admissible (fs : list system) (st : cm_state) :
  (0 < n_nuc)%nat ->
  shaped n_nuc st ->
  Forall (admissible sup inbox indexes n_nuc (align_conf st)) fs ->
  exists st', accumulate_all' fs st = Some st' /\ shaped n_nuc st'.
Proof.
  intros Hn. revert st; induction fs as [|f fs IH]; intros st Hsh Hall.
  - exists st. split; [reflexivity | assumption].
  - inversion Hall as [|? ? Hf Hfs]; subst.
    destruct (accumulate_admissible sup inbox indexes n_nuc f st Hn Hsh Hf)
      as (st1 & Hacc & Hsh1).
    cbn [accumulate_all]. rewrite Hacc. cbn.
    apply IH.
    + apply intermediate_mean_shaped, Hsh1.
    + destruct (intermediate_mean_fields st1) as (-> & _).
      apply accumulate_inv in Hacc as (_ & _ & _ & _ & _ & _ & -> & _).
      assumption.
Qed.

Lemma initial_state_shaped (align_conf : array) :
  shaped n_nuc (initial_state n_nuc align_conf).
Proof. unfold shaped, initial_state, zeros; simpl. rewrite !repeat_length. auto. Qed.

End LoopFacts.

(** ** The Frame Accumulator: what a call returns *)

Lemma admissible_still (align_conf : array) (F : nat) :
  Forall (admissible sup_identity in_box [0%nat] 1 align_conf) (still_trajectory F).
Proof.
  apply List.Forall_forall. intros f Hf. apply repeat_spec in Hf. subst f.
  split; [eexists; reflexivity | reflexivity].
Qed.

(** A call on admissible configurations returns, and its count is [stop]
    or, when the reader has fewer configurations left after the skip, their
    number. *)
Lemma compute_mean_count (sup : array -> array -> option (mat3 * vec3))
    (inbox : system -> system) (indexes : list nat) (n_nuc : nat)
    (parallel : bool) (INTERMEDIATE_EVERY : nat) (reader : LorenzoReader2)
    (align_conf : array) (num_confs start stop : nat) :
  (0 < n_nuc)%nat ->
  Forall (admissible sup inbox indexes n_nuc align_conf) reader ->
  exists r,
    compute_mean sup inbox indexes n_nuc parallel INTERMEDIATE_EVERY reader
      align_conf num_confs (Some start) (Some stop) = Some r /\
    res_confid r = Nat.min stop (length reader - start).
Proof.
  intros Hn Hall. unfold compute_mean. rewrite compute_mean_state_spec.
  destruct (accumulate_all_admissible sup inbox indexes n_nuc parallel
              INTERMEDIATE_EVERY (firstn stop (skipn start reader))
              (initial_state n_nuc align_conf) Hn
              (initial_state_shaped n_nuc align_conf))
    as (st & Hst & _).
  { apply Forall_take, Forall_drop, Hall. }
  rewrite Hst. cbn. eexists; split; [reflexivity|].
  apply accumulate_all_confid in Hst as [-> _]. simpl.
  rewrite length_firstn, length_skipn. reflexivity.
Qed.

(** Without bounds the call runs from configuration 0 with [num_confs] as
    its stop. *)
Lemma compute_mean_serial_bounds (sup : array -> array -> option (mat3 * vec3))
    (inbox : system -> system) (indexes : list nat) (n_nuc : nat)
    (parallel : bool) (INTERMEDIATE_EVERY : nat) (reader : LorenzoReader2)
    (align_conf : array) (num_confs : nat) :
  compute_mean sup inbox indexes n_nuc parallel INTERMEDIATE_EVERY reader
    align_conf num_confs None None
  = compute_mean sup inbox indexes n_nuc parallel INTERMEDIATE_EVERY reader
      align_conf num_confs (Some O) (Some num_confs).
Proof. reflexivity. Qed.

(** C2 as it is stated fails.  A reader of ten configurations and the
    chunk bound [2, 4): the call skips two configurations and then folds four
    of them, not 4 - 2 = 2, and returns 4 as its count. *)
Theorem compute_mean_chunk_2_4_counts_4 :
  exists r,
    compute_mean sup_identity in_box [0%nat] 1 true 1 (still_trajectory 10)
      still_reference 10 (Some 2%nat) (Some 4%nat) = Some r /\
    res_confid r = 4%nat /\
    res_confid r <> (4 - 2)%nat.
Proof.
  destruct (compute_mean_count sup_identity in_box [0%nat] 1 true 1
              (still_trajectory 10) still_reference 10 2 4)
    as (r & Hr & Hc).
  - lia.
  - apply admissible_still.
  - exists r. split; [exact Hr|]. rewrite Hc.
    unfold still_trajectory. rewrite repeat_length. simpl. split; lia.
Qed.

(** C8.  [compute_mean] never changes the reference point set: in the
    state a call leaves behind, whatever the reader, the bounds and the
    number of configurations folded, [align_conf] is the array the caller
    passed in. *)
Theorem compute_mean_keeps_reference
    (sup : array -> array -> option (mat3 * vec3)) (inbox : system -> system)
    (indexes : list nat) (n_nuc : nat) (parallel : bool)
    (INTERMEDIATE_EVERY : nat) (reader : LorenzoReader2) (reference : array)
    (num_confs : nat) (start stop : option nat) (st : cm_state) :
  compute_mean_state sup inbox indexes n_nuc parallel INTERMEDIATE_EVERY
    reader reference num_confs start stop = Some st ->
  align_conf st = reference.
Proof.
  rewrite compute_mean_state_defaults, compute_mean_state_spec.
  intros H. apply accumulate_all_confid in H as [_ ->]. reflexivity.
Qed.

Lemma compute_mean_keeps_reference_witness :
  exists st,
    compute_mean_state sup_identity in_box [0%nat] 1 false 1 (still_trajectory 3)
      still_reference 3 None None = Some st /\
    align_conf st = still_reference.
Proof.
  destruct (accumulate_all_admissible sup_identity in_box [0%nat] 1 false 1
              (firstn 3 (skipn 0 (still_trajectory 3)))
              (initial_state 1 still_reference))
    as (st & Hst & _).
  - lia.
  - apply initial_state_shaped.
  - apply Forall_take, Forall_drop, admissible_still.
  - exists st.
    assert (H : compute_mean_state sup_identity in_box [0%nat] 1 false 1
                  (still_trajectory 3) still_reference 3 None None = Some st).
    { rewrite compute_mean_state_defaults, compute_mean_state_spec. exact Hst. }
    split; [exact H|].
    exact (compute_mean_keeps_reference sup_identity in_box [0%nat] 1 false 1
             (still_trajectory 3) still_reference 3 None None st H).
Defined.

Lemma iadd_shape_only (a b b' c : array) :
  iadd a b = Some c -> length b' = length b -> is_Some (iadd a b').
Proof.
  destruct a as [|x a]; [discriminate|].
  destruct b as [|y [|z b]]; [discriminate| |].
  - intros _ Hl. destruct b' as [|y' [|z' b']]; try discriminate.
    eexists; reflexivity.
  - unfold iadd.
    destruct (Nat.eqb_spec (length (x :: a)) (length (y :: z :: b)))
      as [e|]; [|discriminate].
    intros _ Hl. destruct b' as [|y' [|z' b']]; try discriminate.
    rewrite <- Hl in e. rewrite (proj2 (Nat.eqb_eq _ _) e).
    eexists; reflexivity.
Qed.

(** C4.  For every configuration it processes, the Frame Accumulator adds
    to the position sum the rotated positions plus the translation, and to
    the primary- and tertiary-axis sums the rotated orientation vectors
    alone.  The translation has no part in the two orientation sums: with a
    superimposer that answers the same rotations and other translations, the
    configuration is processed as well and the two orientation sums come out
    the same. *)
Theorem accumulate_translates_positions_only
    (sup sup' : array -> array -> option (mat3 * vec3))
    (inbox : system -> system) (indexes : list nat) (mysystem : system)
    (st st' : cm_state) :
  accumulate sup inbox indexes mysystem st = Some st' ->
  (forall reference coords,
      fst <$> sup' reference coords = fst <$> sup reference coords) ->
  (exists rot tran,
      sup (align_conf st) (indexed_fetch_np indexes (inbox mysystem))
        = Some (rot, tran) /\
      iadd (mean_pos_storage st)
        (add_bcast (map (rotated rot) (fetch_np (inbox mysystem))) tran)
        = Some (mean_pos_storage st') /\
      iadd (mean_a1_storage st)
        (map (rotated rot) (fetch_a1 (inbox mysystem)))
        = Some (mean_a1_storage st') /\
      iadd (mean_a3_storage st)
        (map (rotated rot) (fetch_a3 (inbox mysystem)))
        = Some (mean_a3_storage st')) /\
  (exists st'',
      accumulate sup' inbox indexes mysystem st = Some st'' /\
      mean_a1_storage st'' = mean_a1_storage st' /\
      mean_a3_storage st'' = mean_a3_storage st').
Proof.
  intros Hacc Hrot.
  destruct (accumulate_inv _ _ _ _ _ _ Hacc)
    as (rot & tran & Hs & Hp & H1 & H3 & _).
  split.
  { exists rot, tran. auto. }
  specialize (Hrot (align_conf st) (indexed_fetch_np indexes (inbox mysystem))).
  rewrite Hs in Hrot. simpl in Hrot.
  destruct (sup' _ _) as [[rot' tran']|] eqn:Hs'; [|discriminate].
  simpl in Hrot. injection Hrot as ->.
  assert (Hne : forall (g : nucleotide -> vec3),
             map g (_nucleotides (inbox mysystem)) <> []).
  { intros g E. apply map_eq_nil in E.
    unfold fetch_a1 in H1. rewrite E in H1. simpl in H1.
    destruct (mean_a1_storage st); discriminate. }
  destruct (iadd_shape_only _ _
              (add_bcast (map (rotated rot) (fetch_np (inbox mysystem))) tran')
              _ Hp) as [sp Hsp].
  { unfold add_bcast. rewrite !length_map. reflexivity. }
  unfold accumulate. rewrite Hs'. cbn.
  unfold fetch_np, fetch_a1, fetch_a3 in *.
  rewrite !einsum_Some by apply Hne. cbn.
  rewrite Hsp, H1, H3. cbn.
  eexists; split; [reflexivity|]. split; reflexivity.
Qed.

Lemma accumulate_translates_positions_only_witness :
  exists st',
    accumulate sup_identity in_box [0%nat] one_particle
      (initial_state 1 still_reference) = Some st' /\
    mean_a1_storage st' = [vadd zeros3 (rotated identity3 (V3 1 0 0))].
Proof.
  destruct (accumulate_admissible sup_identity in_box [0%nat] 1 one_particle
              (initial_state 1 still_reference))
    as (st' & Hst & _).
  - lia.
  - apply initial_state_shaped.
  - split; [eexists; reflexivity | reflexivity].
  - exists st'. split; [exact Hst|].
    destruct (accumulate_translates_positions_only sup_identity sup_identity
                in_box [0%nat] one_particle _ st' Hst (fun _ _ => eq_refl))
      as [(rot & tran & Hs & _ & H1 & _) _].
    injection Hs as <- <-. cbn in H1. injection H1 as <-. reflexivity.
Defined.

(** ** The intermediate means *)

Lemma div_succ (m E : nat) :
  E <> O ->
  (S m / E = m / E + (if (S m mod E =? 0)%nat then 1 else 0))%nat.
Proof.
  intros HE.
  pose proof (Nat.div_mod_eq m E) as Hm.
  pose proof (Nat.mod_upper_bound m E HE) as Hr.
  destruct (Nat.eq_dec (S (m mod E)) E) as [e|n].
  - assert (Hq : (S (m / E) = S m / E)%nat)
      by (apply (Nat.div_unique _ _ _ 0); nia).
    assert (Hz : (0 = S m mod E)%nat)
      by (apply (Nat.mod_unique _ _ (S (m / E))); nia).
    rewrite <- Hq, <- Hz. simpl. lia.
  - assert (Hq : (m / E = S m / E)%nat)
      by (apply (Nat.div_unique _ _ _ (S (m mod E))); nia).
    assert (Hz : (S (m mod E) = S m mod E)%nat)
      by (apply (Nat.mod_unique _ _ (m / E)); nia).
    rewrite <- Hq, <- Hz. simpl. lia.
Qed.

Lemma length_intermediate_mean (parallel : bool) (E : nat) (st : cm_state) :
  length (intermediate_mean_structures (intermediate_mean parallel E st))
  = (length (intermediate_mean_structures st)
     + (if intermediate_due parallel E (confid st) then 1 else 0))%nat.
Proof.
  unfold intermediate_mean. destruct (intermediate_due _ _ _); simpl.
  - rewrite length_app. reflexivity.
  - lia.
Qed.

(** In serial mode with a non-zero period, the intermediate means appended
    while the counter goes from c to c + n are as many as the multiples of
    the period in (c, c + n]. *)
Lemma accumulate_all_serial_intermediate
    (sup : array -> array -> option (mat3 * vec3)) (inbox : system -> system)
    (indexes : list nat) (E : nat) (fs : list system) (st st' : cm_state) :
  E <> O ->
  accumulate_all sup inbox indexes false E fs st = Some st' ->
  (length (intermediate_mean_structures st') + confid st / E
   = length (intermediate_mean_structures st) + (confid st + length fs) / E)%nat.
Proof.
  intros HE. revert st; induction fs as [|f fs IH]; intros st;
    cbn [accumulate_all].
  - intros [= <-]. simpl. rewrite Nat.add_0_r. reflexivity.
  - destruct (accumulate _ _ _ _ _) as [st1|] eqn:Hacc; [|discriminate].
    cbn. intros H. apply IH in H.
    apply accumulate_inv in Hacc as (_ & _ & _ & _ & _ & _ & _ & Hi & Hc).
    destruct (intermediate_mean_fields false E st1) as (_ & _ & _ & _ & Hc2).
    rewrite Hc2, Hc in H. rewrite length_intermediate_mean, Hi, Hc in H.
    unfold intermediate_due in H. simpl in H.
    destruct (Nat.eqb_spec E 0) as [|_]; [contradiction|].
    rewrite (div_succ (confid st) E HE) in H.
    cbn [length]. replace (confid st + S (length fs))%nat
      with (S (confid st + length fs))%nat by lia.
    destruct (S (confid st) mod E =? 0)%nat; lia.
Qed.

(** Without a period (fewer than ten configurations), and in parallel
    mode, no intermediate mean is appended. *)
Lemma accumulate_all_no_intermediate
    (sup : array -> array -> option (mat3 * vec3)) (inbox : system -> system)
    (indexes : list nat) (parallel : bool) (E : nat) (fs : list system)
    (st st' : cm_state) :
  parallel = true \/ E = O ->
  accumulate_all sup inbox indexes parallel E fs st = Some st' ->
  intermediate_mean_structures st' = intermediate_mean_structures st.
Proof.
  intros Hoff. revert st; induction fs as [|f fs IH]; intros st;
    cbn [accumulate_all].
  - intros [= <-]. reflexivity.
  - destruct (accumulate _ _ _ _ _) as [st1|] eqn:Hacc; [|discriminate].
    cbn. intros H. apply IH in H. rewrite H.
    apply accumulate_inv in Hacc as (_ & _ & _ & _ & _ & _ & _ & Hi & _).
    rewrite <- Hi. unfold intermediate_mean, intermediate_due.
    destruct Hoff as [-> | ->]; simpl; [reflexivity|].
    rewrite andb_false_r. reflexivity.
Qed.

(** The counters in 1..F that are positive multiples of E are F / E many. *)
Lemma count_multiples (E F : nat) :
  E <> O ->
  length (List.filter (fun c => (0 <? E)%nat && (c mod E =? 0)%nat) (seq 1 F))
  = (F / E)%nat.
Proof.
  intros HE. induction F as [|F IH].
  - simpl. symmetry. apply Nat.Div0.div_0_l.
  - rewrite seq_S, List.filter_app, length_app, IH. cbn [List.filter Nat.add].
    rewrite (div_succ F E HE).
    destruct (Nat.ltb_spec 0 E); [|lia].
    destruct (S F mod E =? 0)%nat; reflexivity.
Qed.

(** C3.  In serial mode over a trajectory of F >= 1 configurations, with
    the period floor(F / 10), the Frame Accumulator returns
    floor(F / floor(F / 10)) intermediate means: one for every value of the
    counter in 1..F that is a positive multiple of the period, and none when
    F < 10, where the period is 0 (the quotient by 0 is 0 in [nat]).  In
    parallel mode a chunk returns an empty list of intermediate means. *)
Theorem serial_intermediate_count
    (sup : array -> array -> option (mat3 * vec3)) (inbox : system -> system)
    (indexes : list nat) (n_nuc : nat) (frames : LorenzoReader2)
    (reference : array) (F : nat) :
  F = length frames ->
  (1 <= F)%nat ->
  (0 < n_nuc)%nat ->
  Forall (admissible sup inbox indexes n_nuc reference) frames ->
  (exists r,
      compute_mean sup inbox indexes n_nuc false (F / 10) frames reference F
        None None = Some r /\
      length (res_intermediate r) = (F / (F / 10))%nat /\
      length (res_intermediate r)
      = length (List.filter
                  (fun c => (0 <? F / 10)%nat && (c mod (F / 10) =? 0)%nat)
                  (seq 1 F)) /\
      ((F < 10)%nat -> res_intermediate r = [])) /\
  (forall E reader num_confs start stop r,
      compute_mean sup inbox indexes n_nuc true E reader reference num_confs
        start stop = Some r ->
      res_intermediate r = []).
Proof.
  intros HF H1 Hn Hall. split.
  - unfold compute_mean.
    rewrite compute_mean_state_defaults, compute_mean_state_spec.
    cbn [default]. change (skipn 0 frames) with frames.
    assert (Hfa : firstn F frames = frames) by (rewrite HF; apply firstn_all).
    rewrite Hfa.
    destruct (accumulate_all_admissible sup inbox indexes n_nuc false (F / 10)%nat
                frames (initial_state n_nuc reference) Hn
                (initial_state_shaped n_nuc reference) Hall)
      as (st & Hst & _).
    rewrite Hst. cbn [mbind option_bind].
    eexists; split; [reflexivity|]. cbn [res_intermediate].
    destruct (Nat.eq_dec (F / 10)%nat 0%nat) as [HE|HE].
    + rewrite HE in *.
      rewrite (accumulate_all_no_intermediate _ _ _ _ _ _ _ _ (or_intror eq_refl) Hst).
      cbn [initial_state intermediate_mean_structures length].
      split; [symmetry; apply Nat.div_0_r|]. split; [|reflexivity].
      induction (seq 1 F) as [|c l IH]; [reflexivity | exact IH].
    + pose proof (accumulate_all_serial_intermediate _ _ _ _ _ _ _ HE Hst) as H.
      cbn [initial_state intermediate_mean_structures confid length] in H.
      rewrite Nat.Div0.div_0_l, <- HF in H. simpl in H.
      rewrite Nat.add_0_r in H. rewrite count_multiples by exact HE.
      split; [exact H|]. split; [exact H|].
      intros Hlt. destruct HE. apply Nat.div_small. exact Hlt.
  - intros E reader num_confs start stop r. unfold compute_mean.
    rewrite compute_mean_state_defaults, compute_mean_state_spec.
    destruct (accumulate_all _ _ _ _ _ _ _) as [st|] eqn:Hst; [|discriminate].
    cbn. intros [= <-]. cbn [res_intermediate].
    rewrite (accumulate_all_no_intermediate _ _ _ _ _ _ _ _ (or_introl eq_refl) Hst).
    reflexivity.
Qed.

Lemma serial_intermediate_count_witness :
  exists r,
    compute_mean sup_identity in_box [0%nat] 1 false (25 / 10)%nat
      (still_trajectory 25) still_reference 25 None None = Some r /\
    length (res_intermediate r) = 12%nat.
Proof.
  destruct (serial_intermediate_count sup_identity in_box [0%nat] 1
              (still_trajectory 25) still_reference 25)
    as [(r & Hr & Hlen & _ & _) _].
  - unfold still_trajectory. rewrite repeat_length. reflexivity.
  - lia.
  - lia.
  - apply admissible_still.
  - exists r. split; [exact Hr|]. rewrite Hlen. reflexivity.
Defined.

(** ** Scripts: how they run *)

Lemma bind_Returns_inv {A B : Type} (m : script A) (k : A -> script B)
    (p p' : process) (b : B) :
  bind m k p = (p', Returns b) ->
  exists a p1, m p = (p1, Returns a) /\ k a p1 = (p', Returns b).
Proof.
  unfold bind. destruct (m p) as [p1 [a| |]]; intros H;
    [eauto | discriminate | discriminate].
Qed.

Lemma bind_Returns {A B : Type} (m : script A) (k : A -> script B)
    (p p1 : process) (a : A) :
  m p = (p1, Returns a) -> bind m k p = k a p1.
Proof. unfold bind. intros ->. reflexivity. Qed.

Lemma bind_Raises {A B : Type} (m : script A) (k : A -> script B)
    (p p1 : process) (e : exception) :
  m p = (p1, Raises e) -> bind m k p = (p1, Raises e).
Proof. unfold bind. intros ->. reflexivity. Qed.

Lemma load_bound (name : string) (v : pyval) (p : process) :
  names p !! name = Some v -> load name p = (p, Returns v).
Proof. unfold load. intros ->. reflexivity. Qed.

Lemma load_unbound (name : string) (p : process) :
  names p !! name = None ->
  existsb (String.eqb name) builtins = false ->
  load name p = (p, Raises (NameError name)).
Proof. unfold load. intros -> ->. reflexivity. Qed.

(** A script keeps a property of the process when every run from a process
    with the property ends, however it ends, in a process with it. *)
Definition keeps {A : Type} (I : process -> Prop) (m : script A) : Prop :=
  forall p p' o, I p -> m p = (p', o) -> I p'.

Lemma keeps_ret {A : Type} (I : process -> Prop) (a : A) : keeps I (ret a).
Proof. intros p p' o HI [= <- _]. exact HI. Qed.

Lemma keeps_exit {A : Type} (I : process -> Prop) (status : Z) :
  keeps I (@exit A status).
Proof. intros p p' o HI [= <- _]. exact HI. Qed.

Lemma keeps_raise {A : Type} (I : process -> Prop) (e : exception) :
  keeps I (@raise A e).
Proof. intros p p' o HI [= <- _]. exact HI. Qed.

Lemma keeps_bind {A B : Type} (I : process -> Prop) (m : script A)
    (k : A -> script B) :
  keeps I m -> (forall a, keeps I (k a)) -> keeps I (bind m k).
Proof.
  intros Hm Hk p p' o HI. unfold bind.
  destruct (m p) as [p1 [a| |]] eqn:E.
  - apply (Hk a), (Hm _ _ _ HI E).
  - intros [= <- _]. apply (Hm _ _ _ HI E).
  - intros [= <- _]. apply (Hm _ _ _ HI E).
Qed.

(** The property of the process the dump of distance.py meets: the name
    [data] is not bound, and the files are those of the disk the script
    started on. *)
Definition data_unbound (disk : gmap string string) (p : process) : Prop :=
  names p !! "data"%string = None /\ files p = disk.

Lemma keeps_store (disk : gmap string string) (name : string) (v : pyval) :
  name <> "data"%string -> keeps (data_unbound disk) (store name v).
Proof.
  intros Hn p p' o [Hd Hf] [= <- _]. split; simpl; [|exact Hf].
  rewrite lookup_insert_ne by exact Hn. exact Hd.
Qed.

Lemma keeps_print_stderr (disk : gmap string string) (msg : string) :
  keeps (data_unbound disk) (print_stderr msg).
Proof. intros p p' o [Hd Hf] [= <- _]. split; simpl; assumption. Qed.

Ltac keeps_step :=
  first
    [ apply keeps_bind; [|intros ?]
    | apply keeps_store; discriminate
    | apply keeps_print_stderr
    | apply keeps_ret
    | apply keeps_exit
    | apply keeps_raise
    | match goal with
      | |- keeps _ (match ?x with _ => _ end) => destruct x
      end ].

Section DistanceFacts.

Context (PROCESSPROGRAM : string)
  (subprocess_run : list string -> string * string)
  (error_lines : string -> nat)
  (parse_distances : string -> option (list R))
  (disk : gmap string string).

Lemma keeps_read_arguments (a : Distance.args) :
  keeps (data_unbound disk) (Distance.read_arguments a).
Proof. unfold Distance.read_arguments. repeat keeps_step. Qed.

Lemma keeps_choose_outfile (a : Distance.args) :
  keeps (data_unbound disk) (Distance.choose_outfile a).
Proof. unfold Distance.choose_outfile. repeat keeps_step. Qed.

Lemma keeps_parse_format (a : Distance.args) :
  keeps (data_unbound disk) (Distance.parse_format a).
Proof. unfold Distance.parse_format. repeat keeps_step. Qed.

Lemma keeps_report_errors (n : nat) (err : string) :
  keeps (data_unbound disk) (Distance.report_errors n err).
Proof. induction n; simpl; repeat keeps_step. exact IHn. Qed.

Lemma keeps_run_inputs (i : nat)
    (inputs : list (string * string * string * string))
    (distances : list pyval) :
  keeps (data_unbound disk)
    (Distance.run_inputs PROCESSPROGRAM subprocess_run error_lines
       parse_distances i inputs distances).
Proof.
  revert i distances.
  induction inputs as [|[[[inputfile dat_file] p1] p2] inputs IH];
    intros i distances; cbn [Distance.run_inputs]; repeat keeps_step.
  - apply keeps_report_errors.
  - apply IH.
Qed.

Lemma keeps_before_dump (a : Distance.args) :
  keeps (data_unbound disk)
    (Distance.before_dump PROCESSPROGRAM subprocess_run error_lines
       parse_distances a).
Proof.
  unfold Distance.before_dump.
  apply keeps_bind; [apply keeps_read_arguments | intros _].
  apply keeps_bind; [apply keeps_choose_outfile | intros _].
  apply keeps_bind; [apply keeps_parse_format | intros _].
  apply keeps_bind; [keeps_step | intros _].
  apply keeps_run_inputs.
Qed.

Lemma start_data_unbound : data_unbound disk (Distance.start disk).
Proof. split; reflexivity. Qed.

End DistanceFacts.

(** ** distance.py: the dump of the data *)

Lemma report_errors_runs (n : nat) (err : string) (p : process) :
  exists msgs,
    Distance.report_errors n err p
    = (Process (names p) (files p) (stderr p ++ msgs) (stdout p)
         (confs_read p), Returns tt).
Proof.
  revert p. induction n as [|n IH]; intros p.
  - exists []. destruct p. cbn. rewrite app_nil_r. reflexivity.
  - cbn [Distance.report_errors bind print_stderr names files stderr stdout
           confs_read].
    destruct (IH (Process (names p) (files p)
                    ((stderr p ++ ["ERROR: DNAnalysis encountered an error"%string])
                     ++ [err]) (stdout p) (confs_read p)))
      as [msgs Hm].
    exists (["ERROR: DNAnalysis encountered an error"%string; err] ++ msgs).
    cbn [names files stderr stdout confs_read] in Hm. rewrite Hm.
    rewrite <- !app_assoc. reflexivity.
Qed.

(** After the loop over one input has returned, [distances] is bound to a
    list of one list of floats. *)
Lemma run_one_input_distances (PROCESSPROGRAM : string)
    (subprocess_run : list string -> string * string)
    (error_lines : string -> nat)
    (parse_distances : string -> option (list R))
    (i : string * string * string * string) (p p' : process) :
  Distance.run_inputs PROCESSPROGRAM subprocess_run error_lines
    parse_distances 0 [i] [] p = (p', Returns tt) ->
  exists l, names p' !! "distances"%string
            = Some (PList [Distance.float_list l]).
Proof.
  destruct i as [[[inputfile dat_file] p1] p2].
  cbn [Distance.run_inputs]. cbv zeta. intros H.
  do 8 (apply bind_Returns_inv in H as (_ & ? & _ & H)).
  destruct (subprocess_run _) as [out err].
  do 5 (apply bind_Returns_inv in H as (_ & ? & _ & H)).
  destruct (parse_distances out) as [l|]; [|discriminate].
  apply bind_Returns_inv in H as ([] & q & Hstore & H).
  unfold store in Hstore. injection Hstore as Hq. subst q.
  cbn [Distance.run_inputs] in H. unfold ret in H. injection H as Hp. subst p'.
  exists l. cbn [names app]. apply lookup_insert_eq.
Qed.

(** C10.  distance.py called with [-d datafile] and exactly one [-i]
    dataset: once the script has come to the dump of the data, the dump opens
    the data file, which leaves it empty, and then evaluates the name [data],
    which no statement executed so far has bound.  The script ends there with
    the uncaught NameError; the data file is empty and no other file has been
    written, so no file holds the output of DNAnalysis. *)
Theorem one_dataset_dump_raises_NameError (PROCESSPROGRAM : string)
    (subprocess_run : list string -> string * string)
    (error_lines : string -> nat)
    (parse_distances : string -> option (list R))
    (make_plots : Distance.args -> script unit)
    (a : Distance.args) (i : string * string * string * string)
    (datafile : string) (disk : gmap string string) (p1 : process) :
  Distance.input a = Some [i] ->
  Distance.data a = Some [datafile] ->
  Distance.before_dump PROCESSPROGRAM subprocess_run error_lines
    parse_distances a (Distance.start disk) = (p1, Returns tt) ->
  exists p2,
    Distance.data_dump a p1 = (p2, Raises (NameError "data")) /\
    Distance.main PROCESSPROGRAM subprocess_run error_lines parse_distances
      make_plots a (Distance.start disk) = (p2, Raises (NameError "data")) /\
    names p2 !! "data"%string = None /\
    files p2 = <[datafile := EmptyString]> disk.
Proof.
  intros Hin Hdata Hbefore.
  destruct (keeps_before_dump PROCESSPROGRAM subprocess_run error_lines
              parse_distances disk a _ _ _ (start_data_unbound disk) Hbefore)
    as [Hunbound Hfiles].
  assert (Hdist : exists l, names p1 !! "distances"%string
                            = Some (PList [Distance.float_list l])).
  { unfold Distance.before_dump in Hbefore.
    apply bind_Returns_inv in Hbefore as (_ & pa & _ & Hbefore).
    apply bind_Returns_inv in Hbefore as (_ & pb & _ & Hbefore).
    apply bind_Returns_inv in Hbefore as (_ & pc & _ & Hbefore).
    apply bind_Returns_inv in Hbefore as (_ & pd & _ & Hbefore).
    rewrite Hin in Hbefore. cbn [default] in Hbefore.
    exact (run_one_input_distances _ _ _ _ _ _ _ Hbefore). }
  destruct Hdist as [l Hdist].
  assert (Hdump :
    Distance.data_dump a p1
    = (Process (<["f"%string := PObject "file"]>
                  (<["datafile"%string := PStr datafile]> (names p1)))
         (<[datafile := EmptyString]> (files p1)) (stderr p1) (stdout p1)
         (confs_read p1),
       Raises (NameError "data"))).
  { unfold Distance.data_dump. rewrite Hdata. cbn [given hd].
    erewrite bind_Returns by reflexivity.
    erewrite bind_Returns
      by (apply load_bound; cbn [names];
          rewrite lookup_insert_ne by discriminate; exact Hdist).
    erewrite bind_Returns by reflexivity.
    cbn [length Nat.ltb Nat.leb].
    erewrite bind_Returns
      by (apply load_bound; cbn [names]; apply lookup_insert_eq).
    erewrite bind_Returns by reflexivity.
    erewrite bind_Returns by reflexivity.
    erewrite bind_Returns by reflexivity.
    erewrite bind_Raises; [reflexivity|].
    apply load_unbound; [|reflexivity]. cbn [names].
    rewrite !lookup_insert_ne by discriminate. exact Hunbound. }
  eexists. split; [exact Hdump|]. split; [|split].
  - unfold Distance.main. rewrite (bind_Returns _ _ _ _ _ Hbefore).
    unfold bind at 1. rewrite Hdump. reflexivity.
  - cbn [names].
    rewrite (lookup_insert_ne _ "f"%string "data"%string) by discriminate.
    rewrite (lookup_insert_ne _ "datafile"%string "data"%string) by discriminate.
    exact Hunbound.
  - cbn [files]. rewrite Hfiles. reflexivity.
Qed.

(** A script that returns from every process. *)
Definition always_returns {A : Type} (m : script A) : Prop :=
  forall p, exists p' a, m p = (p', Returns a).

Lemma always_returns_bind {A B : Type} (m : script A) (k : A -> script B) :
  always_returns m -> (forall a, always_returns (k a)) ->
  always_returns (bind m k).
Proof.
  intros Hm Hk p. destruct (Hm p) as (p1 & a & E).
  destruct (Hk a p1) as (p2 & b & E2).
  exists p2, b. rewrite (bind_Returns _ _ _ _ _ E). exact E2.
Qed.

Lemma always_returns_store (name : string) (v : pyval) :
  always_returns (store name v).
Proof. intros p. eexists _, _. unfold store. reflexivity. Qed.

Lemma always_returns_print_stderr (msg : string) :
  always_returns (print_stderr msg).
Proof. intros p. eexists _, _. unfold print_stderr. reflexivity. Qed.

Lemma always_returns_ret {A : Type} (a : A) : always_returns (ret a).
Proof. intros p. eexists _, _. unfold ret. reflexivity. Qed.

Ltac returns_step :=
  first
    [ apply always_returns_bind; [|intros ?]
    | apply always_returns_store
    | apply always_returns_print_stderr
    | apply always_returns_ret ].

Lemma one_dataset_before_dump_returns :
  always_returns
    (Distance.before_dump "DNAnalysis" one_line_dnanalysis no_error_lines
       one_distance one_dataset).
Proof.
  unfold Distance.before_dump, Distance.read_arguments,
    Distance.choose_outfile, Distance.parse_format.
  cbn [one_dataset Distance.input Distance.output Distance.format default given
         Distance.run_inputs map length Nat.eqb negb andb
         one_line_dnanalysis no_error_lines one_distance
         Distance.report_errors].
  repeat returns_step.
Qed.

Lemma one_dataset_dump_raises_NameError_witness :
  exists p1 p2,
    Distance.before_dump "DNAnalysis" one_line_dnanalysis no_error_lines
      one_distance one_dataset (Distance.start ∅) = (p1, Returns tt) /\
    Distance.main "DNAnalysis" one_line_dnanalysis no_error_lines one_distance
      no_plots one_dataset (Distance.start ∅)
    = (p2, Raises (NameError "data")) /\
    files p2 = <["distances.txt"%string := EmptyString]> ∅.
Proof.
  destruct (one_dataset_before_dump_returns (Distance.start ∅))
    as (p1 & [] & Hb).
  exists p1.
  destruct (one_dataset_dump_raises_NameError "DNAnalysis" one_line_dnanalysis
              no_error_lines one_distance no_plots one_dataset
              ("input", "trajectory.dat", "1", "2")%string
              "distances.txt"%string ∅ p1 eq_refl eq_refl Hb)
    as (p2 & _ & Hmain & _ & Hfiles).
  exists p2. split; [exact Hb|]. split; [exact Hmain | exact Hfiles].
Defined.

(** ** compute_mean.py: the output format *)

Lemma str_in_singleton_neq (tok name : string) :
  tok <> name -> str_in name [tok] = false.
Proof.
  intros H. unfold str_in. simpl. rewrite orb_false_r.
  apply String.eqb_neq. congruence.
Qed.

(** C9.  With [-f tok] where tok is none of json, oxDNA, oxdna and both,
    compute_mean.py prints the error on stderr and exits with status 1 as
    soon as the dependency check has returned: the part of the script that
    reads the trajectory and writes the output is not run, whatever it does,
    so the files and the count of configurations read are those the
    dependency check left. *)
Theorem unrecognized_format_exits_1
    (check_dependencies : list string -> script unit)
    (compute_and_write : cm_args -> bool -> bool -> string -> script unit)
    (args : cm_args) (tok : string) (p p1 : process) :
  format args = Some [tok] ->
  tok <> "json"%string -> tok <> "oxDNA"%string ->
  tok <> "oxdna"%string -> tok <> "both"%string ->
  check_dependencies ["python"; "Bio"; "numpy"]%string p = (p1, Returns tt) ->
  compute_mean_main check_dependencies compute_and_write args p
  = (Process (names p1) (files p1)
       (stderr p1 ++ ["ERROR: unrecognized output format"%string])
       (stdout p1) (confs_read p1),
     Exits 1).
Proof.
  intros Hfmt Hj HO Ho Hb Hdeps.
  unfold compute_mean_main. rewrite (bind_Returns _ _ _ _ _ Hdeps).
  unfold parse_format. rewrite Hfmt. cbn [given].
  rewrite !str_in_singleton_neq by assumption.
  reflexivity.
Qed.

Lemma unrecognized_format_exits_1_witness :
  compute_mean_main dependencies_met read_one_write_one
    (CmArgs ["trajectory.dat"%string] ["system.top"%string] None None
       (Some ["xml"%string]) None None None)
    (Process ∅ ∅ [] [] 0)
  = (Process ∅ ∅ ["ERROR: unrecognized output format"%string] [] 0, Exits 1).
Proof.
  apply (unrecognized_format_exits_1 dependencies_met read_one_write_one
           (CmArgs ["trajectory.dat"%string] ["system.top"%string] None None
              (Some ["xml"%string]) None None None)
           "xml"%string (Process ∅ ∅ [] [] 0) (Process ∅ ∅ [] [] 0));
    [reflexivity | discriminate | discriminate | discriminate | discriminate
    | reflexivity].
Defined.

(** ** The reduction when [stop] is the size of the range *)

Lemma zip_add_assoc (a b c : array) :
  zip_add (zip_add a b) c = zip_add a (zip_add b c).
Proof.
  revert b c; induction a as [|x a IH]; intros [|y b] [|z c]; simpl;
    try reflexivity.
  rewrite IH. f_equal. apply vec3_eq; simpl; lra.
Qed.

Lemma zip_add_zeros_l (n : nat) (t : array) :
  length t = n -> zip_add (zeros n) t = t.
Proof.
  revert n; induction t as [|x t IH]; intros [|n] H; simpl in *;
    try congruence.
  unfold zeros in IH. rewrite IH by congruence. f_equal.
  apply vec3_eq; simpl; lra.
Qed.

Lemma length_fold_zip_add (n : nat) (ts : list array) (a : array) :
  Forall (fun t => length t = n) ts -> length a = n ->
  length (fold_left zip_add ts a) = n.
Proof.
  revert a; induction ts as [|t ts IH]; intros a Hts Ha; simpl; [exact Ha|].
  inversion Hts; subst. apply IH; [assumption|].
  rewrite length_zip_add; congruence.
Qed.

Lemma zip_add_zeros_r (n : nat) (a : array) :
  length a = n -> zip_add a (zeros n) = a.
Proof.
  revert n; induction a as [|x a IH]; intros [|n] H; simpl in *;
    try congruence.
  unfold zeros in IH. rewrite IH by congruence. f_equal.
  apply vec3_eq; simpl; lra.
Qed.

Lemma fold_zip_add_from_zeros (n : nat) (ts : list array) (a : array) :
  Forall (fun t => length t = n) ts -> length a = n ->
  fold_left zip_add ts a = zip_add a (fold_left zip_add ts (zeros n)).
Proof.
  revert a; induction ts as [|t ts IH]; intros a Hts Ha; cbn [fold_left].
  - symmetry. apply zip_add_zeros_r, Ha.
  - inversion Hts as [|? ? Ht Hts']. clear Hts.
    rewrite (zip_add_zeros_l n t Ht).
    rewrite (IH (zip_add a t)) by (try rewrite length_zip_add; congruence).
    rewrite (IH t Hts' Ht).
    apply zip_add_assoc.
Qed.

Section Totals.

Context (term : system -> array) (n : nat).

Lemma total_app (fs gs : list system) :
  Forall (fun f => length (term f) = n) (fs ++ gs) ->
  total term n (fs ++ gs) = zip_add (total term n fs) (total term n gs).
Proof.
  intros Hall. apply Forall_app in Hall as [Hfs Hgs].
  unfold total. rewrite map_app, fold_left_app.
  apply fold_zip_add_from_zeros.
  - apply Forall_map. exact Hgs.
  - apply length_fold_zip_add.
    + apply Forall_map. exact Hfs.
    + unfold zeros. apply repeat_length.
Qed.

(** The sum across the workers of the totals of their ranges is the total
    of the ranges put end to end. *)
Lemma fold_totals (fs : list system) (rest : list (list system)) :
  Forall (fun f => length (term f) = n) (fs ++ concat rest) ->
  fold_left zip_add (map (total term n) rest) (total term n fs)
  = total term n (fs ++ concat rest).
Proof.
  revert fs; induction rest as [|gs rest IH]; intros fs Hall; simpl.
  - rewrite app_nil_r. reflexivity.
  - simpl in Hall. rewrite app_assoc in Hall. rewrite app_assoc.
    rewrite <- (IH (fs ++ gs) Hall). f_equal.
    symmetry. apply total_app.
    apply Forall_app in Hall as [H _]. exact H.
Qed.

End Totals.

Section SumsOfARun.

Context (sup : array -> array -> option (mat3 * vec3))
  (inbox : system -> system) (indexes : list nat) (n_nuc : nat)
  (reference : array).

Local Abbreviation tpos := (term_pos sup inbox indexes reference).
Local Abbreviation ta1 := (term_a1 sup inbox indexes reference).
Local Abbreviation ta3 := (term_a3 sup inbox indexes reference).

Lemma admissible_terms (f : system) :
  admissible sup inbox indexes n_nuc reference f ->
  length (tpos f) = n_nuc /\ length (ta1 f) = n_nuc /\ length (ta3 f) = n_nuc.
Proof.
  intros [[[rot tran] Hs] HN]. unfold term_pos, term_a1, term_a3.
  rewrite Hs. unfold add_bcast, fetch_np, fetch_a1, fetch_a3.
  rewrite !length_map. auto.
Qed.

Lemma admissible_all_terms (fs : list system) :
  Forall (admissible sup inbox indexes n_nuc reference) fs ->
  Forall (fun f => length (tpos f) = n_nuc) fs /\
  Forall (fun f => length (ta1 f) = n_nuc) fs /\
  Forall (fun f => length (ta3 f) = n_nuc) fs.
Proof.
  intros H. repeat split; eapply Forall_impl; try exact H;
    intros f Hf; apply admissible_terms in Hf; tauto.
Qed.

(** The sums after a fold are the sums before it plus the terms of the
    configurations folded, in their order. *)
Lemma accumulate_all_sums (parallel : bool) (E : nat) (fs : list system)
    (st st' : cm_state) :
  (0 < n_nuc)%nat ->
  shaped n_nuc st ->
  align_conf st = reference ->
  Forall (admissible sup inbox indexes n_nuc reference) fs ->
  accumulate_all sup inbox indexes parallel E fs st = Some st' ->
  mean_pos_storage st' = fold_left zip_add (map tpos fs) (mean_pos_storage st) /\
  mean_a1_storage st' = fold_left zip_add (map ta1 fs) (mean_a1_storage st) /\
  mean_a3_storage st' = fold_left zip_add (map ta3 fs) (mean_a3_storage st).
Proof.
  intros Hn. revert st. induction fs as [|f fs IH]; intros st Hsh Hal Hall;
    cbn [accumulate_all].
  - intros [= <-]. auto.
  - apply Forall_cons in Hall as [Hf Hfs].
    destruct (accumulate _ _ _ _ _) as [st1|] eqn:Hacc; [|discriminate].
    cbn [mbind option_bind]. intros H.
    pose proof (accumulate_shaped _ _ _ _ _ _ _ Hsh Hacc) as Hsh1.
    destruct (accumulate_inv _ _ _ _ _ _ Hacc)
      as (rot & tran & Hs & Hp & H1 & H3 & Ha & _).
    destruct (intermediate_mean_fields parallel E st1)
      as (Ea & Ep & E1 & E3 & _).
    apply IH in H.
    + rewrite Ep, E1, E3 in H.
      destruct (admissible_terms f Hf) as (Lp & L1 & L3).
      destruct Hsh as (Sp & S1 & S3).
      assert (forall a : array, length a = n_nuc -> a <> []) as Hnil.
      { intros a Ha' Ee. subst a. simpl in Ha'. lia. }
      rewrite Hal in Hs.
      assert (Tp : tpos f
                   = add_bcast (map (rotated rot) (fetch_np (inbox f))) tran)
        by (unfold term_pos; rewrite Hs; reflexivity).
      assert (T1 : ta1 f = map (rotated rot) (fetch_a1 (inbox f)))
        by (unfold term_a1; rewrite Hs; reflexivity).
      assert (T3 : ta3 f = map (rotated rot) (fetch_a3 (inbox f)))
        by (unfold term_a3; rewrite Hs; reflexivity).
      rewrite <- Tp in Hp. rewrite <- T1 in H1. rewrite <- T3 in H3.
      rewrite iadd_same_shape in Hp, H1, H3
        by (try apply Hnil; congruence).
      injection Hp as Hp. injection H1 as H1. injection H3 as H3.
      cbn [map fold_left]. rewrite Hp, H1, H3. exact H.
    + apply intermediate_mean_shaped, Hsh1.
    + rewrite Ea, Ha. exact Hal.
    + exact Hfs.
Qed.

(** What a call returns on admissible configurations: the totals of the
    configurations it folds and their number. *)
Lemma compute_mean_totals (parallel : bool) (E : nat) (reader : LorenzoReader2)
    (num_confs start stop : nat) :
  (0 < n_nuc)%nat ->
  Forall (admissible sup inbox indexes n_nuc reference) reader ->
  exists r,
    compute_mean sup inbox indexes n_nuc parallel E reader reference num_confs
      (Some start) (Some stop) = Some r /\
    res_pos r = total tpos n_nuc (firstn stop (skipn start reader)) /\
    res_a1 r = total ta1 n_nuc (firstn stop (skipn start reader)) /\
    res_a3 r = total ta3 n_nuc (firstn stop (skipn start reader)) /\
    res_confid r = length (firstn stop (skipn start reader)).
Proof.
  intros Hn Hall.
  assert (Hsub : Forall (admissible sup inbox indexes n_nuc reference)
                   (firstn stop (skipn start reader)))
    by (apply Forall_take, Forall_drop, Hall).
  unfold compute_mean. rewrite compute_mean_state_spec.
  destruct (accumulate_all_admissible sup inbox indexes n_nuc parallel E
              (firstn stop (skipn start reader))
              (initial_state n_nuc reference) Hn
              (initial_state_shaped n_nuc reference) Hsub)
    as (st & Hst & _).
  rewrite Hst. cbn [mbind option_bind]. eexists; split; [reflexivity|].
  cbn [res_pos res_a1 res_a3 res_confid].
  destruct (accumulate_all_sums parallel E _ _ _ Hn
              (initial_state_shaped n_nuc reference) eq_refl Hsub Hst)
    as (Hp & H1 & H3).
  apply accumulate_all_confid in Hst as [Hc _].
  rewrite Hp, H1, H3, Hc. auto.
Qed.

End SumsOfARun.

(** C2, as amended.  [stop] bounds the number of configurations folded; it
    is not the ID of the configuration to end on.  For every [start] and
    [stop], the Frame Accumulator skips the first [start] configurations,
    folds exactly [stop] configurations into its running sums and returns
    [stop] as its count, provided the reader holds at least [start + stop]
    configurations; if the reader is exhausted earlier, it folds and counts
    the configurations read after the skip.  The configurations folded are
    those with the IDs start, start + 1, ... in this order.  The
    configurations are ones the accumulator takes. *)
Theorem compute_mean_folds_stop_frames
    (sup : array -> array -> option (mat3 * vec3)) (inbox : system -> system)
    (indexes : list nat) (n_nuc : nat) (parallel : bool) (E : nat)
    (reader : LorenzoReader2) (reference : array) (num_confs start stop : nat) :
  (0 < n_nuc)%nat ->
  Forall (admissible sup inbox indexes n_nuc reference) reader ->
  exists r folded,
    compute_mean sup inbox indexes n_nuc parallel E reader reference num_confs
      (Some start) (Some stop) = Some r /\
    length folded = res_confid r /\
    (forall i, (i < res_confid r)%nat ->
               folded !! i = reader !! (start + i)%nat) /\
    res_pos r = total (term_pos sup inbox indexes reference) n_nuc folded /\
    res_a1 r = total (term_a1 sup inbox indexes reference) n_nuc folded /\
    res_a3 r = total (term_a3 sup inbox indexes reference) n_nuc folded /\
    ((start + stop <= length reader)%nat -> res_confid r = stop) /\
    ((length reader <= start + stop)%nat ->
     res_confid r = (length reader - start)%nat).
Proof.
  intros Hn Hall.
  destruct (compute_mean_totals sup inbox indexes n_nuc reference parallel E
              reader num_confs start stop Hn Hall)
    as (r & Hr & Hp & H1 & H3 & Hc).
  exists r, (firstn stop (skipn start reader)).
  assert (Hlen : res_confid r = Nat.min stop (length reader - start))
    by (rewrite Hc, length_firstn, length_skipn; reflexivity).
  split; [exact Hr|]. split; [symmetry; exact Hc|]. split.
  - intros i Hi. rewrite lookup_take, lookup_drop.
    destruct (decide (i < stop)%nat) as [_|Hge]; [reflexivity | lia].
  - repeat (split; [assumption|]). split; intros Hb; lia.
Qed.

Lemma compute_mean_folds_stop_frames_witness :
  exists (r : partial_result) (folded : list system),
    compute_mean sup_identity in_box [0%nat] 1 true 1 (still_trajectory 10)
      still_reference 10 (Some 2%nat) (Some 4%nat) = Some r /\
    length folded = 4%nat /\
    res_confid r = 4%nat.
Proof.
  destruct (compute_mean_folds_stop_frames sup_identity in_box [0%nat] 1 true
              1 (still_trajectory 10) still_reference 10 2 4)
    as (r & folded & Hr & Hl & _ & _ & _ & _ & Hc & _).
  - lia.
  - apply admissible_still.
  - exists r, folded. split; [exact Hr|].
    assert (H4 : res_confid r = 4%nat).
    { apply Hc. unfold still_trajectory. rewrite repeat_length. lia. }
    rewrite Hl. auto.
Defined.

Lemma firstn_app_skipn {A : Type} (a b : nat) (l : list A) :
  firstn a l ++ firstn b (skipn a l) = firstn (a + b) l.
Proof.
  revert l; induction a as [|a IH]; intros l; [reflexivity|].
  destruct l as [|x l]; simpl.
  - rewrite firstn_nil. reflexivity.
  - f_equal. apply IH.
Qed.

Lemma partitions_le (from F : nat) (chunks : list (nat * nat)) :
  partitions from F chunks -> (from <= F)%nat.
Proof.
  revert from; induction chunks as [|[s e] chunks IH]; intros from; simpl.
  - intros ->. lia.
  - intros (-> & Hle & H). apply IH in H. lia.
Qed.

(** The ranges of a partition of [from, F), put end to end, are the
    configurations from..F-1. *)
Lemma concat_ranges (frames : list system) (from F : nat)
    (chunks : list (nat * nat)) :
  partitions from F chunks ->
  concat (map (range_of frames) chunks) = firstn (F - from) (skipn from frames).
Proof.
  revert from; induction chunks as [|[s e] chunks IH]; intros from; simpl.
  - intros ->. rewrite Nat.sub_diag. reflexivity.
  - intros (-> & Hle & H). pose proof (partitions_le _ _ _ H) as HeF.
    rewrite (IH e H). unfold range_of. cbn [fst snd].
    replace (skipn e frames) with (skipn (e - from) (skipn from frames))
      by (rewrite skipn_skipn; f_equal; lia).
    rewrite firstn_app_skipn. f_equal. lia.
Qed.

Lemma sum_lengths {A : Type} (ls : list (list A)) (acc : nat) :
  fold_left Nat.add (map (@length A) ls) acc = (acc + length (concat ls))%nat.
Proof.
  revert acc; induction ls as [|l ls IH]; intros acc; simpl; [lia|].
  rewrite IH, length_app. lia.
Qed.

(** Every worker returns the totals of its range. *)
Lemma run_chunks_totals
    (sup : array -> array -> option (mat3 * vec3)) (inbox : system -> system)
    (indexes : list nat) (n_nuc E : nat) (frames : list system)
    (num_confs : nat) (reference : array) (chunks : list (nat * nat)) :
  (0 < n_nuc)%nat ->
  Forall (admissible sup inbox indexes n_nuc reference) frames ->
  exists out,
    run_chunks sup inbox indexes n_nuc E frames num_confs reference
      chunks = Some out /\
    map res_pos out
    = map (total (term_pos sup inbox indexes reference) n_nuc)
        (map (range_of frames) chunks) /\
    map res_a1 out
    = map (total (term_a1 sup inbox indexes reference) n_nuc)
        (map (range_of frames) chunks) /\
    map res_a3 out
    = map (total (term_a3 sup inbox indexes reference) n_nuc)
        (map (range_of frames) chunks) /\
    map res_confid out = map (@length system) (map (range_of frames) chunks).
Proof.
  intros Hn Hall. unfold run_chunks.
  induction chunks as [|[s e] chunks (out & Hout & Hp & H1 & H3 & Hc)].
  - exists []. repeat split; reflexivity.
  - destruct (compute_mean_totals sup inbox indexes n_nuc reference true E
                frames num_confs s (e - s) Hn Hall)
      as (r & Hr & Rp & R1 & R3 & Rc).
    exists (r :: out). cbn [mapM]. rewrite Hr, Hout. cbn [map].
    unfold range_of at 1 3 5 7. cbn [fst snd].
    rewrite Hp, H1, H3, Hc, Rp, R1, R3, Rc.
    repeat split; reflexivity.
Qed.

(** The reduction is exact: for every partition of [0, F) into W >= 1
    contiguous ranges, the combined sums and count are those of the serial
    run. *)
Lemma reduction_is_serial
    (sup : array -> array -> option (mat3 * vec3)) (inbox : system -> system)
    (indexes : list nat) (n_nuc E E' : nat) (frames : list system)
    (reference : array) (F : nat) (chunks : list (nat * nat)) :
  partitions 0 F chunks ->
  chunks <> [] ->
  F = length frames ->
  (0 < n_nuc)%nat ->
  Forall (admissible sup inbox indexes n_nuc reference) frames ->
  exists out serial,
    run_chunks sup inbox indexes n_nuc E' frames F reference chunks
      = Some out /\
    compute_mean sup inbox indexes n_nuc false E frames reference F None None
      = Some serial /\
    res_pos (combine out) = res_pos serial /\
    res_a1 (combine out) = res_a1 serial /\
    res_a3 (combine out) = res_a3 serial /\
    res_confid (combine out) = res_confid serial.
Proof.
  intros Hpart Hne HF Hn Hall.
  destruct (run_chunks_totals sup inbox indexes n_nuc E' frames F
              reference chunks Hn Hall)
    as (out & Hout & Hp & H1 & H3 & Hc).
  destruct (compute_mean_totals sup inbox indexes n_nuc reference false E
              frames F 0 F Hn Hall)
    as (serial & Hs & Sp & S1 & S3 & Sc).
  assert (Hfr : firstn F (skipn 0 frames) = frames)
    by (rewrite HF; apply firstn_all).
  rewrite Hfr in Sp, S1, S3, Sc.
  pose proof (concat_ranges frames 0 F chunks Hpart) as Hcat.
  rewrite Nat.sub_0_r, Hfr in Hcat.
  exists out, serial. split; [exact Hout|].
  split; [rewrite compute_mean_serial_bounds; exact Hs|].
  destruct (admissible_all_terms sup inbox indexes n_nuc reference frames Hall)
    as (Lp & L1 & L3).
  unfold combine. cbn [res_pos res_a1 res_a3 res_confid].
  rewrite Hp, H1, H3, Hc, Sp, S1, S3, Sc.
  destruct chunks as [|c chunks]; [congruence|].
  cbn [map sum_axis0]. cbn [map concat] in Hcat.
  rewrite !fold_totals by (rewrite Hcat; assumption).
  rewrite Hcat.
  change (length (range_of frames c)
          :: map (@length system) (map (range_of frames) chunks))
    with (map (@length system) (map (range_of frames) (c :: chunks))).
  rewrite sum_lengths. cbn [map concat]. rewrite Hcat.
  repeat split; reflexivity.
Qed.

(** ** The parallel reduction *)

Lemma ranges_from_partitions (from : nat) (sizes : list nat) :
  partitions from (from + list_sum sizes) (ranges_from from sizes).
Proof.
  revert from; induction sizes as [|n sizes IH]; intros from;
    cbn [ranges_from list_sum fold_right partitions].
  - lia.
  - split; [reflexivity|]. split; [lia|].
    fold (list_sum sizes).
    replace (from + (n + list_sum sizes))%nat
      with (from + n + list_sum sizes)%nat by lia.
    apply IH.
Qed.

Lemma length_ranges_from (from : nat) (sizes : list nat) :
  length (ranges_from from sizes) = length sizes.
Proof.
  revert from; induction sizes as [|n sizes IH]; intros from;
    cbn [ranges_from length]; [reflexivity|].
  rewrite IH. reflexivity.
Qed.

(** W sizes, the first r of them larger by one, add up to W * q + r. *)
Lemma sizes_sum (q r W : nat) :
  list_sum (map (fun i => if (i <? r)%nat then S q else q) (seq 0 W))
  = (W * q + Nat.min r W)%nat.
Proof.
  induction W as [|W IH]; [cbn; lia|].
  rewrite seq_S, map_app, list_sum_app, IH.
  cbn [map list_sum fold_right Nat.add].
  destruct (Nat.ltb_spec W r); lia.
Qed.

(** The ranges of the Parallel Reducer are a partition of [0, F) into W
    contiguous ranges. *)
Lemma split_ranges_is_partition (F W : nat) :
  (0 < W)%nat ->
  partitions 0 F (split_ranges F W) /\ length (split_ranges F W) = W.
Proof.
  intros HW. unfold split_ranges. split.
  - pose proof (ranges_from_partitions 0
                  (map (fun i => if (i <? F mod W)%nat then S (F / W)
                                 else (F / W)%nat) (seq 0 W))) as H.
    rewrite sizes_sum in H.
    assert (Hmod : (F mod W < W)%nat) by (apply Nat.mod_upper_bound; lia).
    pose proof (Nat.div_mod_eq F W) as Hdm.
    replace (0 + (W * (F / W) + Nat.min (F mod W) W))%nat with F in H by lia.
    exact H.
  - rewrite length_ranges_from, length_map, length_seq. reflexivity.
Qed.

Lemma same_sums_same_means (r r' : partial_result) (align_conf : array)
    (align_conf_id : nat) :
  same_sums r r' ->
  same_means (finalize r align_conf align_conf_id)
    (finalize r' align_conf align_conf_id).
Proof.
  destruct r as [[[[pos a1] a3] snaps] count],
           r' as [[[[pos' a1'] a3'] snaps'] count'].
  unfold same_sums, same_means. cbn. intros (-> & -> & -> & ->).
  repeat split; reflexivity.
Qed.

(** C1.  For every trajectory of F configurations cut into W >= 1
    contiguous, non-overlapping ranges that exhaust [0, F), each range folded
    by a Frame Accumulator of its own, the row-by-row sum of the partial
    position, a1 and a3 sums and the sum of the partial counts are exactly
    the sums and the count, F, of one serial run over the F configurations;
    so the mean positions and orientations of the final record are the same.
    This holds for every such partition, and for the W ranges the Parallel
    Reducer makes in particular.  The configurations are ones the
    accumulator takes: the superimposer fits them and each has [n_nuc]
    particles. *)
Theorem parallel_reduction_is_serial
    (sup : array -> array -> option (mat3 * vec3)) (inbox : system -> system)
    (indexes : list nat) (n_nuc E E' : nat) (frames : list system)
    (reference : array) (F align_conf_id : nat) :
  F = length frames ->
  (0 < n_nuc)%nat ->
  Forall (admissible sup inbox indexes n_nuc reference) frames ->
  exists serial,
    compute_mean sup inbox indexes n_nuc false E frames reference F None None
      = Some serial /\
    res_confid serial = F /\
    (forall chunks,
        partitions 0 F chunks ->
        chunks <> [] ->
        exists out,
          run_chunks sup inbox indexes n_nuc E' frames F reference chunks
            = Some out /\
          length out = length chunks /\
          same_sums (combine out) serial /\
          same_means (finalize (combine out) reference align_conf_id)
            (finalize serial reference align_conf_id)) /\
    (forall W,
        (0 < W)%nat ->
        exists out,
          fire_multiprocess sup inbox indexes n_nuc E' frames F W reference
            = Some out /\
          length out = W /\
          same_sums (combine out) serial /\
          same_means (finalize (combine out) reference align_conf_id)
            (finalize serial reference align_conf_id)).
Proof.
  intros HF Hn Hall.
  destruct (compute_mean_totals sup inbox indexes n_nuc reference false E
              frames F 0 F Hn Hall)
    as (serial & Hs & _ & _ & _ & Sc).
  rewrite <- compute_mean_serial_bounds in Hs.
  assert (Hcount : res_confid serial = F).
  { rewrite Sc. change (skipn 0 frames) with frames.
    rewrite HF. rewrite firstn_all. reflexivity. }
  assert (Hchunks : forall chunks,
             partitions 0 F chunks ->
             chunks <> [] ->
             exists out,
               run_chunks sup inbox indexes n_nuc E' frames F reference chunks
                 = Some out /\
               length out = length chunks /\
               same_sums (combine out) serial /\
               same_means (finalize (combine out) reference align_conf_id)
                 (finalize serial reference align_conf_id)).
  { intros chunks Hpart Hne.
    destruct (reduction_is_serial sup inbox indexes n_nuc E E' frames
                reference F chunks Hpart Hne HF Hn Hall)
      as (out & serial' & Hout & Hs' & Hp & H1 & H3 & Hc).
    assert (serial' = serial) as -> by congruence.
    assert (Hsame : same_sums (combine out) serial)
      by (unfold same_sums; auto).
    exists out. split; [exact Hout|]. split.
    - unfold run_chunks in Hout. apply mapM_Some in Hout.
      symmetry. exact (Forall2_length _ _ _ Hout).
    - split; [exact Hsame | apply same_sums_same_means, Hsame]. }
  exists serial. split; [exact Hs|]. split; [exact Hcount|].
  split; [exact Hchunks|].
  intros W HW. destruct (split_ranges_is_partition F W HW) as [Hpart Hlen].
  destruct (Hchunks (split_ranges F W) Hpart) as (out & Hout & Hl & Hsame).
  - intros Hnil. rewrite Hnil in Hlen. cbn in Hlen. lia.
  - exists out. unfold fire_multiprocess. rewrite Hl, Hlen. auto.
Qed.

Lemma parallel_reduction_is_serial_witness :
  exists out serial,
    fire_multiprocess sup_identity in_box [0%nat] 1 10 (still_trajectory 100)
      100 4 still_reference = Some out /\
    compute_mean sup_identity in_box [0%nat] 1 false 10 (still_trajectory 100)
      still_reference 100 None None = Some serial /\
    length out = 4%nat /\
    res_confid serial = 100%nat /\
    res_confid (combine out) = 100%nat /\
    res_pos (combine out) = res_pos serial.
Proof.
  destruct (parallel_reduction_is_serial sup_identity in_box [0%nat] 1 10 10
              (still_trajectory 100) still_reference 100 0)
    as (serial & Hs & Hc & _ & Hfire).
  - unfold still_trajectory. rewrite repeat_length. reflexivity.
  - lia.
  - apply admissible_still.
  - destruct (Hfire 4%nat) as (out & Hout & Hl & (Hp & _ & _ & Hcc) & _);
      [lia|].
    exists out, serial. rewrite Hcc. auto 10.
Defined.

(** ** The definitions on small inputs *)

Example given_one : given (Some ["json"%string]) = Some ["json"%string].
Proof. reflexivity. Qed.

Example given_empty : given (Some (@nil string)) = None.
Proof. reflexivity. Qed.

Example get_system_skips :
  _get_system 2 (still_trajectory 3) = (Some one_particle, []).
Proof. reflexivity. Qed.

Example get_system_end : _get_system 3 (still_trajectory 3) = (None, []).
Proof. reflexivity. Qed.

Example split_ranges_10_3 :
  split_ranges 10 3 = [(0, 4); (4, 7); (7, 10)]%nat.
Proof. reflexivity. Qed.

Example split_ranges_partitions : partitions 0 10 (split_ranges 10 3).
Proof. simpl. repeat split; lia. Qed.

Example numbered_name_dot :
  Distance.numbered_name "dist.txt" 1 = "dist1.txt"%string.
Proof. reflexivity. Qed.

Example numbered_name_no_dot :
  Distance.numbered_name "dist" 0 = "dis0t"%string.
Proof. reflexivity. Qed.

Example parse_format_both (p : process) :
  parse_format (Some ["both"%string]) p = (p, Returns (true, true)).
Proof. reflexivity. Qed.

Example parse_format_default :
  parse_format None (Process ∅ ∅ [] [] 0)
  = (Process ∅ ∅
       ["INFO: No output format specified, defaulting to oxDNA"%string] [] 0,
     Returns (false, true)).
Proof. reflexivity. Qed.

Example intermediate_due_serial :
  map (intermediate_due false 2) [1; 2; 3; 4]%nat = [false; true; false; true].
Proof. reflexivity. Qed.

Example intermediate_due_no_period :
  map (intermediate_due false 0) [1; 2; 3]%nat = [false; false; false].
Proof. reflexivity. Qed.

(** ** More on the helpers: [normalize] and [compute_cms] *)

Lemma norm_vdiv (v : vec3) (c : R) : 0 < c -> norm (vdiv v c) = norm v / c.
Proof.
  intros Hc. unfold norm. simpl.
  replace (vx v / c * (vx v / c) + vy v / c * (vy v / c)
           + vz v / c * (vz v / c))
    with ((vx v * vx v + vy v * vy v + vz v * vz v) / (c * c))
    by (field; lra).
  rewrite sqrt_div_alt by nra.
  rewrite sqrt_square by lra. reflexivity.
Qed.

Lemma normalize_vdiv (v : vec3) (c : R) :
  0 < c -> normalize (vdiv v c) = normalize v.
Proof.
  intros Hc. unfold normalize. rewrite (norm_vdiv v c Hc).
  destruct (Req_dec_T (norm v) 0) as [H0|Hn].
  - rewrite H0. destruct (Req_dec_T (0 / c) 0) as [_|H]; [|exfalso; apply H; lra].
    rewrite (norm_eq_0 v H0). apply vdiv_zeros3.
  - destruct (Req_dec_T (norm v / c) 0) as [H|_].
    + exfalso. apply Hn. replace (norm v) with (norm v / c * c) by (field; lra).
      rewrite H. lra.
    + apply vec3_eq; simpl; field; split; lra.
Qed.

(** X1.  [normalize] is idempotent: a normalized vector is returned as it
    is, the zero vector included. *)
Theorem normalize_idempotent (v : vec3) :
  normalize (normalize v) = normalize v.
Proof.
  destruct (Req_dec_T (norm v) 0) as [H0|Hn].
  - assert (E : normalize v = v).
    { unfold normalize. destruct (Req_dec_T (norm v) 0); [reflexivity|contradiction]. }
    rewrite E. exact E.
  - assert (H1 : norm (normalize v) = 1).
    { apply normalize_unit. intros ->. apply Hn, norm_zeros3. }
    unfold normalize at 1. rewrite H1.
    destruct (Req_dec_T 1 0) as [H|_]; [lra|].
    apply vec3_eq; simpl; field.
Qed.

(** X2.  The division by the number of processed frames has no effect on
    the mean orientations: for a count of at least one they are the
    normalized orientation sums. *)
Theorem mean_orientations_ignore_count (storage : array) (processed_frames : nat) :
  (0 < processed_frames)%nat ->
  mean_orientations storage processed_frames = map normalize storage.
Proof.
  intros Hc. unfold mean_orientations, arr_div. rewrite map_map.
  apply map_ext. intros v. apply normalize_vdiv.
  apply lt_0_INR. exact Hc.
Qed.

Lemma mean_orientations_ignore_count_witness :
  mean_orientations [V3 0 3 4] 7 = map normalize [V3 0 3 4].
Proof. apply (mean_orientations_ignore_count [V3 0 3 4] 7). lia. Defined.

Lemma add_bcast_as_sub (P : array) (t : vec3) :
  add_bcast P t = sub_bcast P (V3 (- vx t) (- vy t) (- vz t)).
Proof.
  unfold add_bcast, sub_bcast. apply map_ext. intros p.
  apply vec3_eq; simpl; lra.
Qed.

(** X3.  The centre of mass moves with the points: for a non-empty point
    set, [compute_cms] of the points shifted by [t] is [compute_cms] of the
    points, shifted by [t]. *)
Theorem compute_cms_translated (P : array) (t : vec3) :
  P <> [] -> compute_cms (add_bcast P t) = vadd (compute_cms P) t.
Proof.
  intros HP.
  assert (Hn : INR (length P) <> 0).
  { apply INR_pos_neq_0. destruct P; [congruence | simpl; lia]. }
  rewrite add_bcast_as_sub. unfold compute_cms.
  rewrite fold_vadd_sub_bcast, length_sub_bcast.
  apply vec3_eq; simpl; field; exact Hn.
Qed.

Lemma compute_cms_translated_witness :
  compute_cms (add_bcast [V3 1 0 0; V3 3 2 0] (V3 0 0 5))
  = vadd (compute_cms [V3 1 0 0; V3 3 2 0]) (V3 0 0 5).
Proof.
  apply (compute_cms_translated [V3 1 0 0; V3 3 2 0] (V3 0 0 5)). discriminate.
Defined.

Lemma compute_cms_recentred (P : array) :
  P <> [] -> compute_cms (sub_bcast P (compute_cms P)) = zeros3.
Proof.
  intros HP.
  assert (Hn : INR (length P) <> 0).
  { apply INR_pos_neq_0. destruct P; [congruence | simpl; lia]. }
  unfold compute_cms at 1. rewrite fold_vadd_sub_bcast, length_sub_bcast.
  unfold compute_cms. apply vec3_eq; simpl; field; exact Hn.
Qed.

Lemma sub_bcast_zeros3 (P : array) : sub_bcast P zeros3 = P.
Proof.
  unfold sub_bcast. induction P as [|p P IH]; simpl; [reflexivity|].
  rewrite IH. f_equal. apply vec3_eq; simpl; lra.
Qed.

(** X4.  Recentring is idempotent: a point set whose centre of mass has been
    subtracted is left as it is by a second recentring (lines 270-272 applied
    to their own result). *)
Theorem recentring_idempotent (P : array) :
  P <> [] ->
  let Q := sub_bcast P (compute_cms P) in
  sub_bcast Q (compute_cms Q) = Q.
Proof.
  intros HP Q. unfold Q. rewrite (compute_cms_recentred P HP).
  apply sub_bcast_zeros3.
Qed.

Lemma recentring_idempotent_witness :
  sub_bcast (sub_bcast [V3 1 0 0; V3 3 2 0] (compute_cms [V3 1 0 0; V3 3 2 0]))
    (compute_cms
       (sub_bcast [V3 1 0 0; V3 3 2 0] (compute_cms [V3 1 0 0; V3 3 2 0])))
  = sub_bcast [V3 1 0 0; V3 3 2 0] (compute_cms [V3 1 0 0; V3 3 2 0]).
Proof.
  apply (recentring_idempotent [V3 1 0 0; V3 3 2 0]). discriminate.
Defined.

(** ** More on the Frame Accumulator *)

(** X5.  On admissible configurations a call with the bounds [start] and
    [stop] returns; it has folded the [stop] configurations that follow the
    first [start] of the reader, or those the reader has left if they are
    fewer: the count is min(stop, F - start) and the three sums are the totals
    of the aligned arrays of exactly these configurations. *)
Theorem compute_mean_folds_window
    (sup : array -> array -> option (mat3 * vec3)) (inbox : system -> system)
    (indexes : list nat) (n_nuc : nat) (parallel : bool) (E : nat)
    (reader : LorenzoReader2) (reference : array) (num_confs start stop : nat) :
  (0 < n_nuc)%nat ->
  Forall (admissible sup inbox indexes n_nuc reference) reader ->
  exists r,
    compute_mean sup inbox indexes n_nuc parallel E reader reference num_confs
      (Some start) (Some stop) = Some r /\
    res_confid r = Nat.min stop (length reader - start) /\
    res_pos r = total (term_pos sup inbox indexes reference) n_nuc
                  (firstn stop (skipn start reader)) /\
    res_a1 r = total (term_a1 sup inbox indexes reference) n_nuc
                 (firstn stop (skipn start reader)) /\
    res_a3 r = total (term_a3 sup inbox indexes reference) n_nuc
                 (firstn stop (skipn start reader)).
Proof.
  intros Hn Hall.
  destruct (compute_mean_totals sup inbox indexes n_nuc reference parallel E
              reader num_confs start stop Hn Hall)
    as (r & Hr & Hp & H1 & H3 & Hc).
  exists r. rewrite Hc, length_firstn, length_skipn. auto.
Qed.

Lemma compute_mean_folds_window_witness :
  exists r,
    compute_mean sup_identity in_box [0%nat] 1 true 0 (still_trajectory 10)
      still_reference 10 (Some 8%nat) (Some 5%nat) = Some r /\
    res_confid r = 2%nat.
Proof.
  destruct (compute_mean_folds_window sup_identity in_box [0%nat] 1 true 0
              (still_trajectory 10) still_reference 10 8 5)
    as (r & Hr & Hc & _).
  - lia.
  - apply admissible_still.
  - exists r. split; [exact Hr|]. rewrite Hc.
    unfold still_trajectory. rewrite repeat_length. reflexivity.
Defined.

(** X6.  With nothing to fold, because the reader has no configuration left
    after the skip or because [stop] is 0, a call returns the sums it
    started from, [n_nuc] rows of zeros each, no intermediate mean and the
    count 0, without the superimposer ever being asked. *)
Theorem compute_mean_nothing_to_fold
    (sup : array -> array -> option (mat3 * vec3)) (inbox : system -> system)
    (indexes : list nat) (n_nuc : nat) (parallel : bool) (E : nat)
    (reader : LorenzoReader2) (reference : array) (num_confs start stop : nat) :
  (length reader <= start)%nat \/ stop = O ->
  compute_mean sup inbox indexes n_nuc parallel E reader reference num_confs
    (Some start) (Some stop)
  = Some (zeros n_nuc, zeros n_nuc, zeros n_nuc, [], O).
Proof.
  intros H. unfold compute_mean. rewrite compute_mean_state_spec.
  assert (Hw : firstn stop (skipn start reader) = []).
  { destruct H as [H | ->]; [|reflexivity].
    rewrite skipn_all2 by exact H. apply firstn_nil. }
  rewrite Hw. reflexivity.
Qed.

Lemma compute_mean_nothing_to_fold_witness :
  compute_mean (fun _ _ => None) in_box [0%nat] 2 false 0 (still_trajectory 3)
    still_reference 3 (Some 3%nat) (Some 3%nat)
  = Some (zeros 2, zeros 2, zeros 2, [], O).
Proof.
  apply (compute_mean_nothing_to_fold (fun _ _ => None) in_box [0%nat] 2 false
           0 (still_trajectory 3) still_reference 3 3 3).
  left. unfold still_trajectory. rewrite repeat_length. lia.
Defined.

(** X7.  A call never depends on the configurations outside its window:
    whatever stands before the first [start] configurations are skipped and
    whatever follows the [stop] configurations folded, the call returns, or
    raises, as on the window alone. *)
Theorem compute_mean_window_only
    (sup : array -> array -> option (mat3 * vec3)) (inbox : system -> system)
    (indexes : list nat) (n_nuc : nat) (parallel : bool) (E : nat)
    (before window after : list system) (reference : array)
    (num_confs num_confs' : nat) :
  compute_mean sup inbox indexes n_nuc parallel E (before ++ window ++ after)
    reference num_confs (Some (length before)) (Some (length window))
  = compute_mean sup inbox indexes n_nuc parallel E window reference num_confs'
      (Some O) (Some (length window)).
Proof.
  unfold compute_mean. rewrite !compute_mean_state_spec.
  rewrite drop_app_length, take_app_length.
  change (skipn 0 window) with window. rewrite firstn_all. reflexivity.
Qed.

Lemma accumulate_all_rejects (sup : array -> array -> option (mat3 * vec3))
    (inbox : system -> system) (indexes : list nat) (parallel : bool) (E : nat)
    (fs : list system) (st : cm_state) (f : system) :
  In f fs ->
  sup (align_conf st) (indexed_fetch_np indexes (inbox f)) = None ->
  accumulate_all sup inbox indexes parallel E fs st = None.
Proof.
  revert st; induction fs as [|g fs IH]; intros st Hin Hs; [destruct Hin|].
  cbn [accumulate_all].
  destruct (accumulate sup inbox indexes g st) as [st1|] eqn:Hacc;
    [|reflexivity].
  cbn [mbind option_bind]. destruct Hin as [-> | Hin].
  - apply accumulate_inv in Hacc as (rot & tran & Hs' & _). congruence.
  - apply IH; [exact Hin|].
    destruct (intermediate_mean_fields parallel E st1) as (-> & _).
    apply accumulate_inv in Hacc as (_ & _ & _ & _ & _ & _ & -> & _).
    exact Hs.
Qed.

(** X8.  A failure of the superimposer is not caught: when it raises on one
    of the configurations of the window of a call, the call raises, whatever
    the other configurations are. *)
Theorem compute_mean_raises_on_rejected
    (sup : array -> array -> option (mat3 * vec3)) (inbox : system -> system)
    (indexes : list nat) (n_nuc : nat) (parallel : bool) (E : nat)
    (reader : LorenzoReader2) (reference : array) (num_confs start stop : nat)
    (f : system) :
  In f (firstn stop (skipn start reader)) ->
  sup reference (indexed_fetch_np indexes (inbox f)) = None ->
  compute_mean sup inbox indexes n_nuc parallel E reader reference num_confs
    (Some start) (Some stop) = None.
Proof.
  intros Hin Hs. unfold compute_mean. rewrite compute_mean_state_spec.
  rewrite (accumulate_all_rejects sup inbox indexes parallel E _
             (initial_state n_nuc reference) f Hin Hs).
  reflexivity.
Qed.

Lemma compute_mean_raises_on_rejected_witness :
  compute_mean (fun _ _ => None) in_box [0%nat] 1 false 0 (still_trajectory 3)
    still_reference 3 (Some 1%nat) (Some 2%nat) = None.
Proof.
  apply (compute_mean_raises_on_rejected (fun _ _ => None) in_box [0%nat] 1
           false 0 (still_trajectory 3) still_reference 3 1 2 one_particle).
  - left. reflexivity.
  - reflexivity.
Defined.

Lemma accumulate_all_shaped (sup : array -> array -> option (mat3 * vec3))
    (inbox : system -> system) (indexes : list nat) (parallel : bool) (E : nat)
    (n : nat) (fs : list system) (st st' : cm_state) :
  shaped n st ->
  accumulate_all sup inbox indexes parallel E fs st = Some st' ->
  shaped n st'.
Proof.
  revert st; induction fs as [|f fs IH]; intros st Hsh; cbn [accumulate_all].
  - intros [= <-]. exact Hsh.
  - destruct (accumulate sup inbox indexes f st) as [st1|] eqn:Hacc;
      [|discriminate].
    cbn [mbind option_bind]. apply IH.
    apply intermediate_mean_shaped.
    exact (accumulate_shaped _ _ _ _ _ _ _ Hsh Hacc).
Qed.

(** X9.  Whatever the configurations and the bounds, the three sums a call
    returns have [n_nuc] rows, and so the mean positions and the two lists of
    mean orientations of the final record have [n_nuc] entries of three
    numbers each. *)
Theorem compute_mean_row_count
    (sup : array -> array -> option (mat3 * vec3)) (inbox : system -> system)
    (indexes : list nat) (n_nuc : nat) (parallel : bool) (E : nat)
    (reader : LorenzoReader2) (reference : array) (num_confs : nat)
    (start stop : option nat) (r : partial_result) (align_conf_id : nat) :
  compute_mean sup inbox indexes n_nuc parallel E reader reference num_confs
    start stop = Some r ->
  (length (res_pos r) = n_nuc /\ length (res_a1 r) = n_nuc /\
   length (res_a3 r) = n_nuc) /\
  let out := finalize r reference align_conf_id in
  (length (g_mean out) = n_nuc /\ length (a1_mean out) = n_nuc /\
   length (a3_mean out) = n_nuc) /\
  Forall (fun row => length row = 3%nat) (g_mean out ++ a1_mean out ++ a3_mean out).
Proof.
  unfold compute_mean.
  rewrite compute_mean_state_defaults, compute_mean_state_spec.
  destruct (accumulate_all _ _ _ _ _ _ _) as [st|] eqn:Hst; [|discriminate].
  cbn [mbind option_bind]. intros [= <-].
  destruct (accumulate_all_shaped _ _ _ _ _ _ _ _ _
              (initial_state_shaped n_nuc reference) Hst)
    as (Hp & H1 & H3).
  cbn [res_pos res_a1 res_a3 finalize g_mean a1_mean a3_mean].
  split; [auto|]. split.
  - unfold prep_pos_for_json, mean_orientations, arr_div.
    rewrite !length_map. auto.
  - unfold prep_pos_for_json. rewrite !Forall_app.
    repeat split; apply List.Forall_forall; intros row Hrow;
      apply in_map_iff in Hrow as (v & <- & _); reflexivity.
Qed.

Lemma compute_mean_row_count_witness :
  exists r,
    compute_mean sup_identity in_box [0%nat] 1 false 1 (still_trajectory 3)
      still_reference 3 None None = Some r /\
    length (g_mean (finalize r still_reference 0)) = 1%nat.
Proof.
  destruct (compute_mean_count sup_identity in_box [0%nat] 1 false 1
              (still_trajectory 3) still_reference 3 0 3)
    as (r & Hr & _); [lia | apply admissible_still |].
  rewrite <- compute_mean_serial_bounds in Hr.
  exists r. split; [exact Hr|].
  destruct (compute_mean_row_count sup_identity in_box [0%nat] 1 false 1
              (still_trajectory 3) still_reference 3 None None r 0 Hr)
    as (_ & (Hg & _) & _).
  exact Hg.
Defined.

Lemma compute_mean_parallel_no_intermediate
    (sup : array -> array -> option (mat3 * vec3)) (inbox : system -> system)
    (indexes : list nat) (n_nuc E : nat) (reader : LorenzoReader2)
    (reference : array) (num_confs : nat) (start stop : option nat)
    (r : partial_result) :
  compute_mean sup inbox indexes n_nuc true E reader reference num_confs
    start stop = Some r ->
  res_intermediate r = [].
Proof.
  unfold compute_mean.
  rewrite compute_mean_state_defaults, compute_mean_state_spec.
  destruct (accumulate_all _ _ _ _ _ _ _) as [st|] eqn:Hst; [|discriminate].
  cbn [mbind option_bind]. intros [= <-]. cbn [res_intermediate].
  rewrite (accumulate_all_no_intermediate _ _ _ _ _ _ _ _ (or_introl eq_refl) Hst).
  reflexivity.
Qed.

(** X10.  The partial results of workers that each fold the configurations
    of one range of a contiguous partition of [0, F), being called with the
    start of the range and its size as [stop], combine (lines 285-290) to the
    sums and the count of the serial run over the F configurations, with no
    intermediate mean. *)
Theorem combine_of_windows_is_serial
    (sup : array -> array -> option (mat3 * vec3)) (inbox : system -> system)
    (indexes : list nat) (n_nuc E E' : nat) (frames : list system)
    (reference : array) (F : nat) (chunks : list (nat * nat))
    (out : list partial_result) :
  partitions 0 F chunks ->
  chunks <> [] ->
  F = length frames ->
  (0 < n_nuc)%nat ->
  Forall (admissible sup inbox indexes n_nuc reference) frames ->
  Forall2 (fun chunk r =>
             compute_mean sup inbox indexes n_nuc true E' frames reference F
               (Some chunk.1) (Some (chunk.2 - chunk.1)%nat) = Some r)
          chunks out ->
  exists serial,
    compute_mean sup inbox indexes n_nuc false E frames reference F None None
      = Some serial /\
    res_pos (combine out) = res_pos serial /\
    res_a1 (combine out) = res_a1 serial /\
    res_a3 (combine out) = res_a3 serial /\
    res_confid (combine out) = res_confid serial /\
    res_intermediate (combine out) = [].
Proof.
  intros Hpart Hne HF Hn Hall Hout.
  destruct (reduction_is_serial sup inbox indexes n_nuc E E' frames
              reference F chunks Hpart Hne HF Hn Hall)
    as (out' & serial & Hout' & Hs & Hp & H1 & H3 & Hc).
  assert (out' = out) as ->.
  { unfold run_chunks in Hout'. apply mapM_Some in Hout'.
    clear -Hout Hout'. revert out' Hout'.
    induction Hout as [|[s e] r chunks out Hr _ IH]; intros out' Hout';
      inversion Hout' as [|? r' ? out'' Hr' Hrest]; subst; [reflexivity|].
    cbn [fst snd] in Hr. rewrite Hr in Hr'. injection Hr' as <-.
    f_equal. apply IH. exact Hrest. }
  exists serial. repeat (split; [assumption|]).
  unfold combine. cbn [res_intermediate].
  clear -Hout. induction Hout as [|chunk r chunks out Hr _ IH]; [reflexivity|].
  cbn [map concat]. rewrite IH.
  rewrite (compute_mean_parallel_no_intermediate _ _ _ _ _ _ _ _ _ _ _ Hr).
  reflexivity.
Qed.

Lemma combine_of_windows_is_serial_witness :
  exists out serial,
    Forall2 (fun chunk r =>
               compute_mean sup_identity in_box [0%nat] 1 true 0
                 (still_trajectory 5) still_reference 5
                 (Some chunk.1) (Some (chunk.2 - chunk.1)%nat) = Some r)
            [(0, 2); (2, 5)]%nat out /\
    compute_mean sup_identity in_box [0%nat] 1 false 0 (still_trajectory 5)
      still_reference 5 None None = Some serial /\
    res_pos (combine out) = res_pos serial /\
    res_confid (combine out) = res_confid serial.
Proof.
  destruct (compute_mean_count sup_identity in_box [0%nat] 1 true 0
              (still_trajectory 5) still_reference 5 0 2)
    as (r1 & Hr1 & _); [lia | apply admissible_still |].
  destruct (compute_mean_count sup_identity in_box [0%nat] 1 true 0
              (still_trajectory 5) still_reference 5 2 3)
    as (r2 & Hr2 & _); [lia | apply admissible_still |].
  assert (Hout : Forall2 (fun chunk r =>
               compute_mean sup_identity in_box [0%nat] 1 true 0
                 (still_trajectory 5) still_reference 5
                 (Some chunk.1) (Some (chunk.2 - chunk.1)%nat) = Some r)
            [(0, 2); (2, 5)]%nat [r1; r2]).
  { repeat constructor; assumption. }
  destruct (combine_of_windows_is_serial sup_identity in_box [0%nat] 1 0 0
              (still_trajectory 5) still_reference 5 [(0, 2); (2, 5)]%nat
              [r1; r2])
    as (serial & Hs & Hp & _ & _ & Hc & _).
  - simpl. repeat split; lia.
  - discriminate.
  - unfold still_trajectory. rewrite repeat_length. reflexivity.
  - lia.
  - apply admissible_still.
  - exact Hout.
  - exists [r1; r2], serial. auto.
Defined.

(** ** What the intermediate means are *)

Lemma accumulate_all_intermediate_means
    (sup : array -> array -> option (mat3 * vec3)) (inbox : system -> system)
    (indexes : list nat) (n_nuc : nat) (reference : array) (parallel : bool)
    (E : nat) (fs : list system) (st st' : cm_state) :
  (0 < n_nuc)%nat ->
  shaped n_nuc st ->
  align_conf st = reference ->
  Forall (admissible sup inbox indexes n_nuc reference) fs ->
  accumulate_all sup inbox indexes parallel E fs st = Some st' ->
  intermediate_mean_structures st'
  = intermediate_mean_structures st
    ++ map (fun c =>
              prep_pos_for_json
                (arr_div
                   (fold_left zip_add
                      (map (term_pos sup inbox indexes reference)
                         (firstn (c - confid st) fs))
                      (mean_pos_storage st))
                   (INR c)))
         (List.filter (intermediate_due parallel E)
            (seq (S (confid st)) (length fs))).
Proof.
  intros Hn. revert st. induction fs as [|f fs IH]; intros st Hsh Hal Hall;
    cbn [accumulate_all].
  - intros [= <-]. cbn. rewrite app_nil_r. reflexivity.
  - apply Forall_cons in Hall as [Hf Hfs].
    destruct (accumulate sup inbox indexes f st) as [st1|] eqn:Hacc;
      [|discriminate].
    cbn [mbind option_bind]. intros H.
    assert (H1 : accumulate_all sup inbox indexes parallel E [f] st
                 = Some (intermediate_mean parallel E st1))
      by (cbn [accumulate_all]; rewrite Hacc; reflexivity).
    destruct (accumulate_all_sums sup inbox indexes n_nuc reference parallel E
                [f] st _ Hn Hsh Hal (Forall_cons_2 _ _ _ Hf (Forall_nil_2 _)) H1)
      as (Hpos & _).
    cbn [map fold_left] in Hpos.
    pose proof (accumulate_shaped _ _ _ _ _ _ _ Hsh Hacc) as Hsh1.
    destruct (accumulate_inv _ _ _ _ _ _ Hacc)
      as (_ & _ & _ & _ & _ & _ & Ha & Hi & Hc).
    destruct (intermediate_mean_fields parallel E st1)
      as (Ea & Ep & _ & _ & Ec).
    apply IH in H;
      [ | apply intermediate_mean_shaped, Hsh1
        | rewrite Ea, Ha; exact Hal | exact Hfs].
    rewrite H, Ec, Hc, Hpos. clear H IH.
    cbn [length seq List.filter].
    assert (Hsnap :
      intermediate_mean_structures (intermediate_mean parallel E st1)
      = intermediate_mean_structures st
        ++ (if intermediate_due parallel E (S (confid st))
            then [prep_pos_for_json
                    (arr_div (zip_add (mean_pos_storage st)
                                (term_pos sup inbox indexes reference f))
                       (INR (S (confid st))))]
            else [])).
    { unfold intermediate_mean. rewrite Hc.
      destruct (intermediate_due parallel E (S (confid st))).
      - cbn [intermediate_mean_structures]. rewrite Hi.
        rewrite <- Hpos, Ep. reflexivity.
      - rewrite Hi, app_nil_r. reflexivity. }
    rewrite Hsnap, <- app_assoc. f_equal.
    assert (Hrest :
      map (fun c =>
             prep_pos_for_json
               (arr_div
                  (fold_left zip_add
                     (map (term_pos sup inbox indexes reference)
                        (firstn (c - S (confid st)) fs))
                     (zip_add (mean_pos_storage st)
                        (term_pos sup inbox indexes reference f)))
                  (INR c)))
        (List.filter (intermediate_due parallel E)
           (seq (S (S (confid st))) (length fs)))
      = map (fun c =>
               prep_pos_for_json
                 (arr_div
                    (fold_left zip_add
                       (map (term_pos sup inbox indexes reference)
                          (firstn (c - confid st) (f :: fs)))
                       (mean_pos_storage st))
                    (INR c)))
          (List.filter (intermediate_due parallel E)
             (seq (S (S (confid st))) (length fs)))).
    { apply map_ext_in. intros c Hin.
      apply filter_In in Hin as [Hin _]. apply in_seq in Hin.
      replace (c - confid st)%nat with (S (c - S (confid st))) by lia.
      reflexivity. }
    rewrite Hrest.
    destruct (intermediate_due parallel E (S (confid st))).
    + cbn [map app]. replace (S (confid st) - confid st)%nat with 1%nat by lia.
      reflexivity.
    + reflexivity.
Qed.

(** X11.  In serial mode every intermediate mean is the mean of the aligned
    positions of the configurations folded so far: the list returned holds,
    for every value c of the counter in 1..F that is a positive multiple of
    the period, the position total of the first c configurations divided by
    c, in this order. *)
Theorem intermediate_means_are_running_means
    (sup : array -> array -> option (mat3 * vec3)) (inbox : system -> system)
    (indexes : list nat) (n_nuc E : nat) (frames : LorenzoReader2)
    (reference : array) (F : nat) :
  F = length frames ->
  (0 < n_nuc)%nat ->
  Forall (admissible sup inbox indexes n_nuc reference) frames ->
  exists r,
    compute_mean sup inbox indexes n_nuc false E frames reference F None None
      = Some r /\
    res_intermediate r
    = map (mean_so_far (term_pos sup inbox indexes reference) n_nuc frames)
        (List.filter (fun c => (0 <? E)%nat && (c mod E =? 0)%nat) (seq 1 F)).
Proof.
  intros HF Hn Hall. unfold compute_mean.
  rewrite compute_mean_state_defaults, compute_mean_state_spec.
  cbn [default]. change (skipn 0 frames) with frames.
  assert (Hfa : firstn F frames = frames) by (rewrite HF; apply firstn_all).
  rewrite Hfa.
  destruct (accumulate_all_admissible sup inbox indexes n_nuc false E frames
              (initial_state n_nuc reference) Hn
              (initial_state_shaped n_nuc reference) Hall)
    as (st & Hst & _).
  rewrite Hst. cbn [mbind option_bind]. eexists; split; [reflexivity|].
  cbn [res_intermediate].
  rewrite (accumulate_all_intermediate_means sup inbox indexes n_nuc reference
             false E frames _ st Hn (initial_state_shaped n_nuc reference)
             eq_refl Hall Hst).
  cbn [initial_state intermediate_mean_structures confid mean_pos_storage app].
  rewrite <- HF.
  assert (Hdue : forall c, intermediate_due false E c
                           = (0 <? E)%nat && (c mod E =? 0)%nat).
  { intros c. unfold intermediate_due. cbn [negb andb].
    destruct E; reflexivity. }
  rewrite (List.filter_ext _ _ Hdue).
  apply map_ext. intros c. rewrite Nat.sub_0_r. reflexivity.
Qed.

Lemma intermediate_means_are_running_means_witness :
  exists r,
    compute_mean sup_identity in_box [0%nat] 1 false 2 (still_trajectory 4)
      still_reference 4 None None = Some r /\
    res_intermediate r
    = [mean_so_far (term_pos sup_identity in_box [0%nat] still_reference) 1
         (still_trajectory 4) 2;
       mean_so_far (term_pos sup_identity in_box [0%nat] still_reference) 1
         (still_trajectory 4) 4].
Proof.
  destruct (intermediate_means_are_running_means sup_identity in_box [0%nat] 1
              2 (still_trajectory 4) still_reference 4)
    as (r & Hr & Hi).
  - reflexivity.
  - lia.
  - apply admissible_still.
  - exists r. split; [exact Hr|]. rewrite Hi. reflexivity.
Defined.

(** ** The mean of equal configurations *)

Lemma zip_add_scaled (k : nat) (t : array) :
  zip_add t (map (fun v => V3 (INR k * vx v) (INR k * vy v) (INR k * vz v)) t)
  = map (fun v => V3 (INR (S k) * vx v) (INR (S k) * vy v) (INR (S k) * vz v)) t.
Proof.
  induction t as [|v t IH]; [reflexivity|]. cbn [map zip_add]. rewrite IH.
  f_equal. rewrite S_INR. apply vec3_eq; simpl; lra.
Qed.

Lemma fold_zip_add_repeat (k : nat) (t a : array) :
  length a = length t ->
  fold_left zip_add (repeat t k) a
  = zip_add a (map (fun v => V3 (INR k * vx v) (INR k * vy v) (INR k * vz v)) t).
Proof.
  revert a; induction k as [|k IH]; intros a Ha.
  - cbn [repeat fold_left]. symmetry.
    replace (map (fun v => V3 (INR 0 * vx v) (INR 0 * vy v) (INR 0 * vz v)) t)
      with (zeros (length t)).
    + apply zip_add_zeros_r, Ha.
    + unfold zeros. clear. induction t as [|v t IH]; [reflexivity|].
      cbn [length repeat map]. rewrite IH. f_equal.
      apply vec3_eq; simpl; lra.
  - cbn [repeat fold_left].
    rewrite IH by (rewrite length_zip_add; assumption).
    rewrite zip_add_assoc, zip_add_scaled. reflexivity.
Qed.

Lemma arr_div_scaled (k : nat) (t : array) :
  (0 < k)%nat ->
  arr_div (map (fun v => V3 (INR k * vx v) (INR k * vy v) (INR k * vz v)) t)
    (INR k) = t.
Proof.
  intros Hk. unfold arr_div. rewrite map_map.
  rewrite <- (map_id t) at 2. apply map_ext. intros v.
  pose proof (INR_pos_neq_0 k Hk).
  apply vec3_eq; simpl; field; assumption.
Qed.

(** X12.  The mean of F >= 1 equal configurations is the configuration as
    it is aligned: the serial run over F copies of one admissible
    configuration counts F, and the mean positions of the final record are
    the rotated and translated positions of that configuration. *)
Theorem mean_of_equal_configurations
    (sup : array -> array -> option (mat3 * vec3)) (inbox : system -> system)
    (indexes : list nat) (n_nuc E : nat) (f : system) (F : nat)
    (reference : array) (align_conf_id : nat) :
  (0 < F)%nat ->
  (0 < n_nuc)%nat ->
  admissible sup inbox indexes n_nuc reference f ->
  exists r,
    compute_mean sup inbox indexes n_nuc false E (repeat f F) reference F
      None None = Some r /\
    res_confid r = F /\
    g_mean (finalize r reference align_conf_id)
    = prep_pos_for_json (term_pos sup inbox indexes reference f).
Proof.
  intros HF Hn Hf.
  assert (Hall : Forall (admissible sup inbox indexes n_nuc reference)
                   (repeat f F)).
  { apply List.Forall_forall. intros g Hg. apply repeat_spec in Hg.
    subst g. exact Hf. }
  destruct (compute_mean_totals sup inbox indexes n_nuc reference false E
              (repeat f F) F 0 F Hn Hall)
    as (r & Hr & Hp & _ & _ & Hc).
  change (skipn 0 (repeat f F)) with (repeat f F) in Hp, Hc.
  assert (Hfa : firstn F (repeat f F) = repeat f F).
  { rewrite <- (repeat_length f F) at 1. apply firstn_all. }
  rewrite Hfa in Hp, Hc. rewrite repeat_length in Hc.
  exists r. split; [rewrite compute_mean_serial_bounds; exact Hr|].
  split; [exact Hc|].
  destruct r as [[[[pos a1] a3] snaps] count].
  cbn [res_pos res_confid finalize g_mean] in *. subst pos count.
  f_equal. unfold total. rewrite map_repeat.
  destruct (admissible_terms sup inbox indexes n_nuc reference f Hf)
    as (Lp & _).
  rewrite fold_zip_add_repeat by (unfold zeros; rewrite repeat_length; congruence).
  rewrite zip_add_zeros_l by (rewrite length_map; exact Lp).
  apply arr_div_scaled, HF.
Qed.

Lemma mean_of_equal_configurations_witness :
  exists r,
    compute_mean sup_identity in_box [0%nat] 1 false 1 (repeat one_particle 3)
      still_reference 3 None None = Some r /\
    g_mean (finalize r still_reference 0)
    = prep_pos_for_json
        (term_pos sup_identity in_box [0%nat] still_reference one_particle).
Proof.
  destruct (mean_of_equal_configurations sup_identity in_box [0%nat] 1 1
              one_particle 3 still_reference 0)
    as (r & Hr & _ & Hg).
  - lia.
  - lia.
  - split; [eexists; reflexivity | reflexivity].
  - exists r. split; assumption.
Defined.

(** ** compute_mean.py: formats, names and the reference *)

(** X13.  The two steps that parse the format and choose the name of the
    output file never raise: either the format is refused with exit status 1,
    or a name is returned.  [parse_format] returns with at least one of the
    two formats selected, so the extension of lines 198-203 is always bound.
    The name is the one given with [-o], and else one of mean.json, mean.dat
    and mean.json/.dat. *)
Theorem format_then_outfile_never_raises (format output : option (list string))
    (p p' : process) (o : outcome string) :
  (fmt <~ parse_format format ;;
   choose_outfile output fmt.1 fmt.2) p = (p', o) ->
  o = Exits 1 \/
  exists outfile,
    o = Returns outfile /\
    (forall name rest, output = Some (name :: rest) -> outfile = name) /\
    (given output = None ->
     In outfile ["mean.json"; "mean.dat"; "mean.json/.dat"]%string).
Proof.
  unfold parse_format, choose_outfile.
  destruct (given format) as [fmt|].
  - destruct (str_in "json" fmt), (str_in "oxDNA" fmt), (str_in "oxdna" fmt),
      (str_in "both" fmt); cbn;
      (destruct output as [[|name rest]|]; cbn; intros [= <- <-];
       first [ left; reflexivity
             | right; eexists; split; [reflexivity|]; split;
               [ intros ? ? [= <- <-] || intros ? ? [=]; reflexivity
               | intros; cbn; tauto || discriminate ] ]).
  - destruct output as [[|name rest]|]; cbn; intros [= <- <-];
      right; eexists; (split; [reflexivity|]); split;
      try (intros ? ? [= <- <-]; reflexivity); try (intros ? ? [=]);
      try (intros; cbn; tauto); try discriminate.
Qed.

Lemma format_then_outfile_never_raises_witness :
  exists p' outfile,
    (fmt <~ parse_format (Some ["both"%string]) ;;
     choose_outfile None fmt.1 fmt.2) (Process ∅ ∅ [] [] 0)
    = (p', Returns outfile) /\
    In outfile ["mean.json"; "mean.dat"; "mean.json/.dat"]%string.
Proof.
  assert (H : (fmt <~ parse_format (Some ["both"%string]) ;;
               choose_outfile None fmt.1 fmt.2) (Process ∅ ∅ [] [] 0)
              = (Process ∅ ∅ ["INFO: No outfile name provided"%string] [] 0,
                 Returns "mean.json/.dat"%string))
    by reflexivity.
  destruct (format_then_outfile_never_raises _ _ _ _ _ H)
    as [Hexit | (outfile & Ho & _ & Hin)]; [discriminate|].
  exists (Process ∅ ∅ ["INFO: No outfile name provided"%string] [] 0), outfile.
  split; [rewrite H, Ho; reflexivity | apply Hin; reflexivity].
Defined.

Lemma before_dot_prefix (s : string) :
  exists rest,
    s = before_dot s +:+ rest /\
    (rest = EmptyString \/ exists r, rest = String "." r).
Proof.
  induction s as [|c s (rest & Hs & Hrest)].
  - exists EmptyString. split; [reflexivity | left; reflexivity].
  - cbn [before_dot]. destruct (Ascii.eqb_spec c "."%char) as [->|Hc].
    + exists (String "." s). split; [reflexivity | right; eauto].
    + exists rest. split; [|exact Hrest].
      change (String c s = String c (before_dot s +:+ rest)).
      f_equal. exact Hs.
Qed.

Lemma before_dot_no_dot (s : string) :
  ~ In "."%char (list_ascii_of_string (before_dot s)).
Proof.
  induction s as [|c s IH]; cbn [before_dot]; [intros []|].
  destruct (Ascii.eqb_spec c "."%char) as [->|Hc]; [intros []|].
  cbn. intros [H | H]; [congruence | exact (IH H)].
Qed.

Lemma append_inv_head (s a b : string) : s +:+ a = s +:+ b -> a = b.
Proof.
  induction s as [|c s IH]; cbn; [auto|]. intros [= H]. exact (IH H).
Qed.

(** X14.  The names of the files written (lines 314-331).  With both
    formats the json file is the output name up to its first dot plus .json
    and the oxDNA file the same stem plus .dat, two different names; the stem
    holds no dot and the output name continues it with nothing or with a dot.
    With one format and no deviations file the one file written has the
    output name itself. *)
Theorem output_file_names (outfile : string) (dev_file : option string) :
  (jsonfile true true dev_file outfile
   = Some (before_dot outfile +:+ ".json") /\
   outname true true outfile = Some (before_dot outfile +:+ ".dat") /\
   jsonfile true true dev_file outfile <> outname true true outfile) /\
  (~ In "."%char (list_ascii_of_string (before_dot outfile)) /\
   exists rest,
     outfile = before_dot outfile +:+ rest /\
     (rest = EmptyString \/ exists r, rest = String "." r)) /\
  (jsonfile true false dev_file outfile = Some outfile /\
   outname true false outfile = None) /\
  (jsonfile false true None outfile = None /\
   outname false true outfile = Some outfile).
Proof.
  repeat split; try reflexivity.
  - cbn. intros [= H]. apply append_inv_head in H. discriminate.
  - apply before_dot_no_dot.
  - apply before_dot_prefix.
Qed.

Example output_names_hidden_directory :
  jsonfile true true None "./run/mean.dat" = Some ".json"%string /\
  outname true true "mean.v2.dat" = Some "mean.dat"%string.
Proof. split; reflexivity. Qed.

(** ** compute_mean.py: the reference configuration *)

Lemma get_system_lookup (n : nat) (reader : LorenzoReader2) :
  (_get_system n reader).1 = reader !! n.
Proof.
  unfold _get_system. revert reader.
  induction n as [|n IH]; intros [|conf reader]; try reflexivity.
  apply IH.
Qed.

(** X15.  The reference chosen with [-a id], for an id that is the literal
    of an integer that is not negative: when the trajectory has a
    configuration of this id, the call returns the id and that configuration
    brought into the box, after two lines on stderr; when it has fewer
    configurations, the call prints the error and exits with status 1. *)
Theorem explicit_reference (int : string -> option Z)
    (inbox : system -> system) (literal : string) (rest : list string)
    (id : Z) (randint : Z) (traj_file : LorenzoReader2) (max_bound : nat)
    (p : process) :
  int literal = Some id ->
  (0 <= id)%Z ->
  (forall conf,
      traj_file !! Z.to_nat id = Some conf ->
      pick_starting_configuration int inbox (Some (literal :: rest)) randint
        traj_file max_bound p
      = (Process (names p) (files p)
           (stderr p
            ++ ["INFO: We chose " +:+ pretty id +:+ " as reference";
                "INFO: reference structure loaded"]%string)
           (stdout p) (confs_read p),
         Returns (id, inbox conf))) /\
  ((length traj_file <= Z.to_nat id)%nat ->
   pick_starting_configuration int inbox (Some (literal :: rest)) randint
     traj_file max_bound p
   = (Process (names p) (files p)
        (stderr p
         ++ ["INFO: We chose " +:+ pretty id +:+ " as reference";
             "ERROR: Couldn't read structure at conf num " +:+ pretty id
             +:+ ".  Something has gone weird"]%string)
        (stdout p) (confs_read p),
      Exits 1)).
Proof.
  intros Hint Hid. unfold pick_starting_configuration. cbn [given hd].
  rewrite Hint. split.
  - intros conf Hconf. cbn [bind ret print_stderr].
    rewrite get_system_lookup, Hconf. cbn. rewrite <- app_assoc. reflexivity.
  - intros Hlen. cbn [bind ret print_stderr].
    assert (Hnone : traj_file !! Z.to_nat id = None)
      by (apply lookup_ge_None_2; exact Hlen).
    rewrite get_system_lookup, Hnone. cbn.
    rewrite <- app_assoc. reflexivity.
Qed.

Lemma explicit_reference_witness :
  pick_starting_configuration (fun _ => Some 7%Z) in_box (Some ["7"%string])
    0%Z (still_trajectory 3) 3 (Process ∅ ∅ [] [] 0)
  = (Process ∅ ∅
       ["INFO: We chose " +:+ pretty 7%Z +:+ " as reference";
        "ERROR: Couldn't read structure at conf num " +:+ pretty 7%Z
        +:+ ".  Something has gone weird"]%string [] 0,
     Exits 1).
Proof.
  destruct (explicit_reference (fun _ => Some 7%Z) in_box "7" [] 7 0
              (still_trajectory 3) 3 (Process ∅ ∅ [] [] 0) eq_refl)
    as [_ H]; [lia|].
  apply H. unfold still_trajectory. rewrite repeat_length. simpl. lia.
Defined.

(** X16.  The reference drawn at random: a draw inside [0, max_bound), for a
    bound that does not exceed the number of configurations of the
    trajectory, always finds its configuration, so the call returns and does
    not exit.  With the bound 0, which is what a trajectory without
    configurations gives, the draw itself raises, whatever the trajectory
    is. *)
Theorem random_reference (int : string -> option Z) (inbox : system -> system)
    (randint : Z) (traj_file : LorenzoReader2) (max_bound : nat) (p : process) :
  ((max_bound <= length traj_file)%nat ->
   (0 <= randint < Z.of_nat max_bound)%Z ->
   exists conf,
     traj_file !! Z.to_nat randint = Some conf /\
     pick_starting_configuration int inbox None randint traj_file max_bound p
     = (Process (names p) (files p)
          (stderr p
           ++ ["INFO: We chose " +:+ pretty randint +:+ " as reference";
               "INFO: reference structure loaded"]%string)
          (stdout p) (confs_read p),
        Returns (randint, inbox conf))) /\
  pick_starting_configuration int inbox None randint traj_file 0 p
  = (p, Raises (ValueError "empty range for randrange()")).
Proof.
  split; [|reflexivity]. intros Hbound Hr.
  assert (Hsome : is_Some (traj_file !! Z.to_nat randint))
    by (apply lookup_lt_is_Some_2; lia).
  destruct Hsome as [conf Hconf].
  exists conf. split; [exact Hconf|].
  unfold pick_starting_configuration. cbn [given].
  destruct (Z.ltb_spec (Z.of_nat max_bound - 1) 0) as [Hlt|_]; [lia|].
  cbn [bind ret print_stderr].
  rewrite get_system_lookup, Hconf. cbn. rewrite <- app_assoc. reflexivity.
Qed.

Lemma random_reference_witness :
  (exists conf,
      still_trajectory 3 !! Z.to_nat 2 = Some conf /\
      pick_starting_configuration (fun _ => None) in_box None 2%Z
        (still_trajectory 3) 3 (Process ∅ ∅ [] [] 0)
      = (Process ∅ ∅
           ["INFO: We chose " +:+ pretty 2%Z +:+ " as reference";
            "INFO: reference structure loaded"]%string [] 0,
         Returns (2%Z, in_box conf))) /\
  pick_starting_configuration (fun _ => None) in_box None 0%Z [] 0
    (Process ∅ ∅ [] [] 0)
  = (Process ∅ ∅ [] [] 0, Raises (ValueError "empty range for randrange()")).
Proof.
  split.
  - destruct (random_reference (fun _ => None) in_box 2 (still_trajectory 3) 3
                (Process ∅ ∅ [] [] 0))
      as [H _].
    apply H.
    + unfold still_trajectory. rewrite repeat_length. lia.
    + lia.
  - destruct (random_reference (fun _ => None) in_box 0 [] 0
                (Process ∅ ∅ [] [] 0))
      as [_ H].
    exact H.
Defined.

(** ** distance.py: the arguments, the format and the distances *)

Ltac run_simple :=
  erewrite bind_Returns
    by first [ unfold store; reflexivity
             | unfold print_stderr; reflexivity
             | unfold open_w; reflexivity
             | unfold ret; reflexivity ].

(** X17.  The check of the input arguments (lines 29-31) never fires: with
    at least one [-i] given the four lists have one length, the arguments are
    read without a line on stderr and without an exit; without any [-i] the
    script raises TypeError at the first list comprehension. *)
Theorem input_check_never_fires (a : Distance.args) (p : process) :
  (forall inp,
      Distance.input a = Some inp ->
      exists p',
        Distance.read_arguments a p = (p', Returns tt) /\
        stderr p' = stderr p /\ files p' = files p) /\
  (Distance.input a = None ->
   exists p',
     Distance.read_arguments a p
     = (p', Raises (TypeError "'NoneType' object is not iterable"))).
Proof.
  unfold Distance.read_arguments. split.
  - intros inp ->. do 2 run_simple. cbv zeta.
    rewrite !length_map, Nat.eqb_refl. cbn [negb andb].
    do 4 run_simple. unfold ret. eexists; split; [reflexivity|].
    split; reflexivity.
  - intros ->. do 2 run_simple. unfold raise. eexists; reflexivity.
Qed.

Lemma input_check_never_fires_witness :
  exists p',
    Distance.read_arguments one_dataset (Process ∅ ∅ [] [] 0)
    = (p', Returns tt) /\
    stderr p' = [].
Proof.
  destruct (input_check_never_fires one_dataset (Process ∅ ∅ [] [] 0))
    as [H _].
  destruct (H _ eq_refl) as (p' & Hp & Hs & _).
  exists p'. split; [exact Hp | exact Hs].
Defined.

(** X18.  The graph format of distance.py (lines 40-56): the step returns
    with [hist] and [lineplt] bound to booleans of which at least one is
    True, or it exits with status 1, which it does exactly when [-f] is given
    and names none of histogram, trajectory and both.  It never raises. *)
Theorem graph_format_selected (a : Distance.args) (p p' : process)
    (o : outcome unit) :
  Distance.parse_format a p = (p', o) ->
  (o = Returns tt /\
   exists hist lineplt,
     names p' !! "hist"%string = Some (PBool hist) /\
     names p' !! "lineplt"%string = Some (PBool lineplt) /\
     hist || lineplt = true) \/
  (o = Exits 1 /\
   exists fmt,
     given (Distance.format a) = Some fmt /\
     str_in "histogram" fmt = false /\
     str_in "trajectory" fmt = false /\
     str_in "both" fmt = false).
Proof.
  unfold Distance.parse_format. do 2 run_simple.
  destruct (given (Distance.format a)) as [fmt|].
  - cbv zeta. do 2 run_simple.
    destruct (str_in "histogram" fmt) eqn:Hh,
             (str_in "trajectory" fmt) eqn:Ht,
             (str_in "both" fmt) eqn:Hb;
      cbn [orb Bool.eqb andb];
      (try run_simple); unfold ret, exit; intros [= <- <-];
      first
        [ right; split; [reflexivity|]; exists fmt; auto
        | left; split; [reflexivity|]; cbn [names];
          eexists _, _; split;
          [ rewrite lookup_insert_ne by discriminate; apply lookup_insert_eq
          | split; [apply lookup_insert_eq | reflexivity] ] ].
  - run_simple. unfold store. intros [= <- <-].
    left. split; [reflexivity|]. cbn [names].
    exists true, false. split; [apply lookup_insert_eq|].
    split; [|reflexivity].
    rewrite lookup_insert_ne by discriminate. apply lookup_insert_eq.
Qed.

Lemma graph_format_selected_witness :
  exists hist lineplt,
    names (Distance.parse_format one_dataset (Process ∅ ∅ [] [] 0)).1
      !! "hist"%string = Some (PBool hist) /\
    hist || lineplt = true.
Proof.
  destruct (graph_format_selected one_dataset (Process ∅ ∅ [] [] 0)
              (Distance.parse_format one_dataset (Process ∅ ∅ [] [] 0)).1
              (Distance.parse_format one_dataset (Process ∅ ∅ [] [] 0)).2)
    as [(_ & hist & lineplt & Hh & _ & Hor) | (_ & fmt & Hf & _)].
  - destruct (Distance.parse_format one_dataset (Process ∅ ∅ [] [] 0));
      reflexivity.
  - exists hist, lineplt. split; assumption.
  - discriminate.
Defined.

Section DistancesFacts.

Context (PROCESSPROGRAM : string)
  (subprocess_run : list string -> string * string)
  (error_lines : string -> nat)
  (parse_distances : string -> option (list R)).

(** The list of floats DNAnalysis gives for one dataset. *)
Definition parsed (inp : string * string * string * string) (l : list R) : Prop :=
  parse_distances
    (subprocess_run
       [PROCESSPROGRAM; inp.1.1.1; "trajectory_file=" +:+ inp.1.1.2;
        Distance.command_for_data inp.1.2 inp.2]).1
  = Some l.

Lemma run_inputs_distances (i : nat)
    (inputs : list (string * string * string * string))
    (distances : list pyval) (p p' : process) :
  Distance.run_inputs PROCESSPROGRAM subprocess_run error_lines
    parse_distances i inputs distances p = (p', Returns tt) ->
  names p !! "distances"%string = Some (PList distances) ->
  exists ls,
    names p' !! "distances"%string
    = Some (PList (distances ++ map Distance.float_list ls)) /\
    Forall2 parsed inputs ls.
Proof.
  revert i distances p.
  induction inputs as [|[[[inputfile dat_file] p1] p2] inputs IH];
    intros i distances p H Hd.
  - cbn [Distance.run_inputs] in H. unfold ret in H. injection H as <-.
    exists []. cbn [map]. rewrite app_nil_r. split; [exact Hd | constructor].
  - cbn [Distance.run_inputs] in H. cbv zeta in H.
    do 8 (apply bind_Returns_inv in H as (_ & ? & _ & H)).
    destruct (subprocess_run _) as [out err] eqn:Hrun.
    do 5 (apply bind_Returns_inv in H as (_ & ? & _ & H)).
    destruct (parse_distances out) as [l|] eqn:Hparse; [|discriminate].
    apply bind_Returns_inv in H as ([] & q & Hstore & H).
    unfold store in Hstore. injection Hstore as Hq. subst q.
    apply IH in H; [|cbn [names]; apply lookup_insert_eq].
    destruct H as (ls & Hls & Hall).
    exists (l :: ls). cbn [map]. rewrite <- app_assoc in Hls.
    split; [exact Hls|]. constructor; [|exact Hall].
    unfold parsed. cbn [fst snd]. rewrite Hrun. exact Hparse.
Qed.

End DistancesFacts.

(** X19.  When the script has come through the loop over the datasets,
    [distances] holds one list of floats per [-i] dataset, in the order of the
    command line, each the parsed output of DNAnalysis run on that dataset;
    no file has been written so far. *)
Theorem distances_one_list_per_dataset (PROCESSPROGRAM : string)
    (subprocess_run : list string -> string * string)
    (error_lines : string -> nat)
    (parse_distances : string -> option (list R))
    (a : Distance.args) (inp : list (string * string * string * string))
    (disk : gmap string string) (p1 : process) :
  Distance.input a = Some inp ->
  Distance.before_dump PROCESSPROGRAM subprocess_run error_lines
    parse_distances a (Distance.start disk) = (p1, Returns tt) ->
  exists ls,
    names p1 !! "distances"%string = Some (PList (map Distance.float_list ls)) /\
    Forall2 (parsed PROCESSPROGRAM subprocess_run parse_distances) inp ls /\
    length ls = length inp /\
    files p1 = disk.
Proof.
  intros Hin Hbefore.
  destruct (keeps_before_dump PROCESSPROGRAM subprocess_run error_lines
              parse_distances disk a _ _ _ (start_data_unbound disk) Hbefore)
    as [_ Hfiles].
  unfold Distance.before_dump in Hbefore.
  apply bind_Returns_inv in Hbefore as (_ & pa & _ & Hbefore).
  apply bind_Returns_inv in Hbefore as (_ & pb & _ & Hbefore).
  apply bind_Returns_inv in Hbefore as (_ & pc & _ & Hbefore).
  apply bind_Returns_inv in Hbefore as ([] & pd & Hstore & Hbefore).
  unfold store in Hstore. injection Hstore as Hpd. subst pd.
  rewrite Hin in Hbefore. cbn [default] in Hbefore.
  apply run_inputs_distances in Hbefore; [|cbn [names]; apply lookup_insert_eq].
  destruct Hbefore as (ls & Hls & Hall).
  exists ls. cbn [app] in Hls.
  repeat split; try assumption.
  symmetry. exact (Forall2_length _ _ _ Hall).
Qed.

Lemma distances_one_list_per_dataset_witness :
  exists p1 ls,
    Distance.before_dump "DNAnalysis" one_line_dnanalysis no_error_lines
      one_distance one_dataset (Distance.start ∅) = (p1, Returns tt) /\
    names p1 !! "distances"%string = Some (PList (map Distance.float_list ls)) /\
    length ls = 1%nat.
Proof.
  destruct (one_dataset_before_dump_returns (Distance.start ∅))
    as (p1 & [] & Hb).
  destruct (distances_one_list_per_dataset "DNAnalysis" one_line_dnanalysis
              no_error_lines one_distance one_dataset _ ∅ p1 eq_refl Hb)
    as (ls & Hls & _ & Hlen & _).
  exists p1, ls. repeat split; assumption.
Defined.

(** X20.  distance.py called with [-d datafile] and two or more [-i]
    datasets: once the script has come to the dump of the data, the dump
    opens the file numbered 0, which leaves it empty, prints its line and
    then raises TypeError, since what it writes is a list of floats and no
    str.  The script ends there; no other file has been written. *)
Theorem many_datasets_dump_raises_TypeError (PROCESSPROGRAM : string)
    (subprocess_run : list string -> string * string)
    (error_lines : string -> nat)
    (parse_distances : string -> option (list R))
    (make_plots : Distance.args -> script unit)
    (a : Distance.args) (i1 i2 : string * string * string * string)
    (inp : list (string * string * string * string))
    (datafile : string) (disk : gmap string string) (p1 : process) :
  Distance.input a = Some (i1 :: i2 :: inp) ->
  Distance.data a = Some [datafile] ->
  Distance.before_dump PROCESSPROGRAM subprocess_run error_lines
    parse_distances a (Distance.start disk) = (p1, Returns tt) ->
  exists p2,
    Distance.data_dump a p1
    = (p2, Raises (TypeError "write() argument must be str")) /\
    Distance.main PROCESSPROGRAM subprocess_run error_lines parse_distances
      make_plots a (Distance.start disk)
    = (p2, Raises (TypeError "write() argument must be str")) /\
    files p2 = <[Distance.numbered_name datafile 0 := EmptyString]> disk /\
    stderr p2
    = stderr p1
      ++ ["INFO: Writing DNAnalysis output to file "
          +:+ Distance.numbered_name datafile 0]%string.
Proof.
  intros Hin Hdata Hbefore.
  destruct (keeps_before_dump PROCESSPROGRAM subprocess_run error_lines
              parse_distances disk a _ _ _ (start_data_unbound disk) Hbefore)
    as [_ Hfiles].
  assert (Hdist : exists l1 l2 ls,
             names p1 !! "distances"%string
             = Some (PList (Distance.float_list l1 :: Distance.float_list l2
                            :: map Distance.float_list ls))).
  { pose proof Hbefore as Hb. unfold Distance.before_dump in Hb.
    apply bind_Returns_inv in Hb as (_ & pa & _ & Hb).
    apply bind_Returns_inv in Hb as (_ & pb & _ & Hb).
    apply bind_Returns_inv in Hb as (_ & pc & _ & Hb).
    apply bind_Returns_inv in Hb as ([] & pd & Hstore & Hb).
    unfold store in Hstore. injection Hstore as Hpd. subst pd.
    rewrite Hin in Hb. cbn [default] in Hb.
    apply run_inputs_distances in Hb; [|cbn [names]; apply lookup_insert_eq].
    destruct Hb as (ls & Hls & Hall).
    inversion Hall as [|? l1 ? ls1 _ Hall1]; subst.
    inversion Hall1 as [|? l2 ? ls2 _ _]; subst.
    exists l1, l2, ls2. exact Hls. }
  destruct Hdist as (l1 & l2 & ls & Hdist).
  assert (Hdump :
    Distance.data_dump a p1
    = (Process
         (<["f"%string := PObject "file"]>
            (<["out"%string := PStr (Distance.numbered_name datafile 0)]>
               (<["data"%string := Distance.float_list l1]>
                  (<["i"%string := PInt 0]>
                     (<["datafile"%string := PStr datafile]> (names p1))))))
         (<[Distance.numbered_name datafile 0 := EmptyString]> (files p1))
         (stderr p1
          ++ ["INFO: Writing DNAnalysis output to file "
              +:+ Distance.numbered_name datafile 0]%string)
         (stdout p1) (confs_read p1),
       Raises (TypeError "write() argument must be str"))).
  { unfold Distance.data_dump. rewrite Hdata. cbn [given hd].
    run_simple.
    erewrite bind_Returns
      by (apply load_bound; cbn [names];
          rewrite lookup_insert_ne by discriminate; exact Hdist).
    erewrite bind_Returns by reflexivity.
    cbn [length Nat.ltb Nat.leb].
    erewrite bind_Returns
      by (apply load_bound; cbn [names]; apply lookup_insert_eq).
    erewrite bind_Returns by reflexivity.
    cbn [Distance.dump_each]. cbv zeta.
    do 6 run_simple.
    cbn [names files stderr stdout confs_read].
    erewrite bind_Returns
      by (apply load_bound; cbn [names];
          rewrite !lookup_insert_ne by discriminate; apply lookup_insert_eq).
    erewrite bind_Raises; [reflexivity|]. reflexivity. }
  eexists. split; [exact Hdump|]. split; [|split].
  - unfold Distance.main. rewrite (bind_Returns _ _ _ _ _ Hbefore).
    unfold bind at 1. rewrite Hdump. reflexivity.
  - cbn [files]. rewrite Hfiles. reflexivity.
  - reflexivity.
Qed.

Definition two_datasets : Distance.args :=
  Distance.Args
    (Some [("input", "trajectory.dat", "1", "2");
           ("input", "trajectory.dat", "3", "4")]%string)
    None None (Some ["distances.txt"%string]).

Lemma two_datasets_before_dump_returns :
  always_returns
    (Distance.before_dump "DNAnalysis" one_line_dnanalysis no_error_lines
       one_distance two_datasets).
Proof.
  unfold Distance.before_dump, Distance.read_arguments,
    Distance.choose_outfile, Distance.parse_format.
  cbn [two_datasets Distance.input Distance.output Distance.format default given
         Distance.run_inputs map length Nat.eqb negb andb
         one_line_dnanalysis no_error_lines one_distance
         Distance.report_errors].
  repeat returns_step.
Qed.

Lemma many_datasets_dump_raises_TypeError_witness :
  exists p1 p2,
    Distance.before_dump "DNAnalysis" one_line_dnanalysis no_error_lines
      one_distance two_datasets (Distance.start ∅) = (p1, Returns tt) /\
    Distance.main "DNAnalysis" one_line_dnanalysis no_error_lines one_distance
      no_plots two_datasets (Distance.start ∅)
    = (p2, Raises (TypeError "write() argument must be str")) /\
    files p2
    = <[Distance.numbered_name "distances.txt" 0 := EmptyString]> ∅.
Proof.
  destruct (two_datasets_before_dump_returns (Distance.start ∅))
    as (p1 & [] & Hb).
  exists p1.
  destruct (many_datasets_dump_raises_TypeError "DNAnalysis"
              one_line_dnanalysis no_error_lines one_distance no_plots
              two_datasets _ _ _ "distances.txt"%string ∅ p1 eq_refl eq_refl Hb)
    as (p2 & _ & Hmain & Hfiles & _).
  exists p2. split; [exact Hb|]. split; [exact Hmain | exact Hfiles].
Defined.

(** ** The intermediate means and the sums *)

(** Everything of a state but its list of intermediate means. *)
Definition sums_of (st : cm_state)
  : array * array * array * array * nat :=
  (align_conf st, mean_pos_storage st, mean_a1_storage st,
   mean_a3_storage st, confid st).

Lemma accumulate_sums_of (sup : array -> array -> option (mat3 * vec3))
    (inbox : system -> system) (indexes : list nat) (f : system)
    (st su : cm_state) :
  sums_of st = sums_of su ->
  sums_of <$> accumulate sup inbox indexes f st
  = sums_of <$> accumulate sup inbox indexes f su.
Proof.
  destruct st as [al p a1 a3 im c], su as [al' p' a1' a3' im' c'].
  unfold sums_of. cbn. intros [= <- <- <- <- <-].
  unfold accumulate. cbn [align_conf mean_pos_storage mean_a1_storage
                            mean_a3_storage intermediate_mean_structures confid].
  destruct (sup al _) as [[rot tran]|]; [|reflexivity]. cbn.
  destruct (einsum rot (fetch_np _)) as [cp|]; [|reflexivity]. cbn.
  destruct (einsum rot (fetch_a1 _)) as [c1|]; [|reflexivity]. cbn.
  destruct (einsum rot (fetch_a3 _)) as [c3|]; [|reflexivity]. cbn.
  destruct (iadd p _) as [sp|]; [|reflexivity]. cbn.
  destruct (iadd a1 _) as [s1|]; [|reflexivity]. cbn.
  destruct (iadd a3 _) as [s3|]; reflexivity.
Qed.

Lemma intermediate_mean_sums_of (parallel : bool) (E : nat) (st : cm_state) :
  sums_of (intermediate_mean parallel E st) = sums_of st.
Proof.
  unfold intermediate_mean. destruct (intermediate_due _ _ _); reflexivity.
Qed.

Lemma accumulate_all_sums_of (sup : array -> array -> option (mat3 * vec3))
    (inbox : system -> system) (indexes : list nat) (parallel parallel' : bool)
    (E E' : nat) (fs : list system) (st su : cm_state) :
  sums_of st = sums_of su ->
  sums_of <$> accumulate_all sup inbox indexes parallel E fs st
  = sums_of <$> accumulate_all sup inbox indexes parallel' E' fs su.
Proof.
  revert st su; induction fs as [|f fs IH]; intros st su H;
    cbn [accumulate_all].
  - cbn. f_equal. exact H.
  - pose proof (accumulate_sums_of sup inbox indexes f st su H) as Hf.
    destruct (accumulate sup inbox indexes f st) as [st1|],
             (accumulate sup inbox indexes f su) as [su1|];
      cbn in Hf; try discriminate; [|reflexivity].
    cbn [mbind option_bind]. apply IH.
    rewrite !intermediate_mean_sums_of. congruence.
Qed.

(** X21.  The intermediate means never touch the sums: with the same
    reader, reference and bounds, a call in serial mode and a call in
    parallel mode, whatever their periods, both raise or both return, and
    then with the same three sums and the same count. *)
Theorem intermediate_means_leave_sums
    (sup : array -> array -> option (mat3 * vec3)) (inbox : system -> system)
    (indexes : list nat) (n_nuc E E' : nat) (reader : LorenzoReader2)
    (reference : array) (num_confs : nat) (start stop : option nat) :
  (fun r => (res_pos r, res_a1 r, res_a3 r, res_confid r))
    <$> compute_mean sup inbox indexes n_nuc false E reader reference
          num_confs start stop
  = (fun r => (res_pos r, res_a1 r, res_a3 r, res_confid r))
      <$> compute_mean sup inbox indexes n_nuc true E' reader reference
            num_confs start stop.
Proof.
  unfold compute_mean.
  rewrite (compute_mean_state_defaults sup inbox indexes n_nuc false E).
  rewrite (compute_mean_state_defaults sup inbox indexes n_nuc true E').
  rewrite !compute_mean_state_spec.
  pose proof (accumulate_all_sums_of sup inbox indexes false true E E'
                (firstn (default num_confs stop) (skipn (default O start) reader))
                (initial_state n_nuc reference) (initial_state n_nuc reference)
                eq_refl) as H.
  destruct (accumulate_all sup inbox indexes false E _ _) as [st|],
           (accumulate_all sup inbox indexes true E' _ _) as [su|];
    cbn in H; try discriminate; [|reflexivity].
  cbn. unfold sums_of in H. injection H as _ -> -> -> ->. reflexivity.
Qed.

(** ** distance.py: the numbered names *)

Lemma prefix_empty (s : string) : String.prefix EmptyString s = true.
Proof. destruct s; reflexivity. Qed.

Lemma append_empty_l (s : string) : "" +:+ s = s.
Proof. reflexivity. Qed.
Lemma append_String_l c (s t : string) : String c s +:+ t = String c (s +:+ t).
Proof. reflexivity. Qed.

Lemma index_dot_stem (stem ext : string) :
  ~ In "."%char (list_ascii_of_string stem) ->
  String.index 0 "." (stem +:+ String "." ext) = Some (String.length stem).
Proof.
  induction stem as [|c stem IH]; intros Hno.
  - rewrite append_empty_l. cbn [String.index String.length String.prefix].
    destruct (ascii_dec "." ".") as [_|Hne]; [|congruence].
    rewrite prefix_empty. reflexivity.
  - rewrite append_String_l.
    cbn [String.index String.length].
    assert (Hp : String.prefix "." (String c (stem +:+ String "." ext)) = false).
    { cbn [String.prefix]. destruct (ascii_dec "." c) as [<-|Hc]; [|reflexivity].
      exfalso. apply Hno. left. reflexivity. }
    rewrite Hp, IH; [reflexivity|].
    intros H. apply Hno. right. exact H.
Qed.

Lemma substring_stem (stem rest : string) :
  substring 0 (String.length stem) (stem +:+ rest) = stem.
Proof.
  induction stem as [|c stem IH].
  - rewrite append_empty_l. destruct rest; reflexivity.
  - rewrite append_String_l. cbn [substring String.length]. rewrite IH. reflexivity.
Qed.

Lemma substring_rest (stem rest : string) :
  substring (String.length stem) (String.length rest) (stem +:+ rest) = rest.
Proof.
  induction stem as [|c stem IH].
  - rewrite append_empty_l. cbn [String.length].
    induction rest as [|c rest IHr]; cbn; [reflexivity|].
    rewrite IHr. reflexivity.
  - rewrite append_String_l. cbn [substring String.length]. exact IH.
Qed.

Lemma length_append (s t : string) :
  String.length (s +:+ t) = (String.length s + String.length t)%nat.
Proof.
  induction s as [|c s IH]; [reflexivity|].
  rewrite append_String_l. cbn [String.length]. rewrite IH. reflexivity.
Qed.

(** X22.  The name of the file of dataset i (line 81): for a data file
    named stem.ext, with no dot in the stem, it is stem, the number i and
    .ext, so the number goes before the first dot of the name. *)
Theorem numbered_name_before_first_dot (stem ext : string) (i : nat) :
  ~ In "."%char (list_ascii_of_string stem) ->
  Distance.numbered_name (stem +:+ String "." ext) i
  = stem +:+ pretty i +:+ String "." ext.
Proof.
  intros Hno. unfold Distance.numbered_name, Distance.str_of_nat.
  rewrite (index_dot_stem stem ext Hno), substring_stem.
  rewrite length_append.
  replace (String.length stem + String.length (String "." ext)
           - String.length stem)%nat
    with (String.length (String "." ext)) by lia.
  rewrite substring_rest. reflexivity.
Qed.

Lemma numbered_name_before_first_dot_witness :
  Distance.numbered_name ("run1" +:+ String "." "v2.txt") 3
  = "run1" +:+ pretty 3%nat +:+ String "." "v2.txt".
Proof.
  apply (numbered_name_before_first_dot "run1" "v2.txt" 3).
  cbn. intros [H | [H | [H | [H | []]]]]; discriminate.
Defined.
